(** * A shallow embedding of the timer application's server (src/index.js)

    The three file-backed collections (timers, users, sessions) are the
    server's whole state.  Each route handler is embedded as a computation
    in a small state-and-exception monad that threads the collections, the
    Express response object and a log of the store accesses and response
    calls the handler makes, in the order it makes them.

    Calls whose results the handler cannot determine (nanoid(), Date.now(),
    bcrypt.hash, bcrypt.compare) are inputs of the embedded handler.

    Scope of the model:
    - a collection is kept as the value JSON.parse yields; a property that
      holds [undefined] is dropped by JSON.stringify and reads as
      [undefined] afterwards, so both are one value ([None]);
    - the sessions object is the finite map of its own properties, keyed by
      the nanoid() identifiers updateSession stores; a cookie whose value
      names a member the object inherits from Object.prototype
      ([object_prototype_keys]) is outside the model: for it
      sessions[sessionId] is that member, not [undefined];
    - [step] and [reachable] serve the requests one after another;
      requests that overlap at the awaits of signup and login are modelled
      apart, by [sys_step];
    - request fields are strings or [undefined];
    - file-system failures and malformed files are left out;
    - of Express, what the handlers rely on: every response method returns
      the response object, res.status only records the code, and a method
      that writes a header or the body raises once a response was sent. *)

From Stdlib Require Import ZArith.
From stdpp Require Import gmap strings list fin_maps.

Local Open Scope Z_scope.
Local Open Scope string_scope.
Local Open Scope list_scope.

(** ** Data model *)

(** A user record as signup builds it: { _id, username, password }. *)
Module User.
Record t := mk { _id : string; username : string; password : string }.
#[global] Instance eq_dec : EqDecision t.
Proof. solve_decision. Defined.
End User.

(** A session record: { userId: user._id }. *)
Module Session.
Record t := mk { userId : string }.
#[global] Instance eq_dec : EqDecision t.
Proof. solve_decision. Defined.
End Session.

(** A timer record.  [userId] is whatever [session.userId] evaluated to when
    the timer was built, which is [undefined] (here [None]) when [session]
    is not a session record; [end] and [duration] are absent until the
    timer is stopped. *)
Module Timer.
Record t := mk {
  id : string;
  start : Z;
  description : string;
  isActive : bool;
  userId : option string;
  progress : Z;
  end_ : option Z;       (* end *)
  duration : option Z
}.
#[global] Instance eq_dec : EqDecision t.
Proof. solve_decision. Defined.

(** The assignments [x.isActive = b], [x.end = e] and [x.duration = d]. *)
Definition set_isActive (b : bool) (x : t) : t :=
  mk (id x) (start x) (description x) b (userId x) (progress x) (end_ x) (duration x).
Definition set_end (e : Z) (x : t) : t :=
  mk (id x) (start x) (description x) (isActive x) (userId x) (progress x) (Some e)
    (duration x).
Definition set_duration (d : Z) (x : t) : t :=
  mk (id x) (start x) (description x) (isActive x) (userId x) (progress x) (end_ x)
    (Some d).
End Timer.

(** The three collections: new db("timers"), new db("users"),
    new db("sessions", {}). *)
Inductive Coll := TIMERS | USERS | SESSIONS.

Record World := mkWorld {
  timers : list Timer.t;
  users : list User.t;
  sessions : gmap string Session.t
}.

(** The initial data of the three files: [], [] and {}. *)
Definition initial_world : World := mkWorld [] [] ∅.

(** ** Requests, responses and the log *)

(** The parts of an Express request the handlers read.  A field that is
    [None] is [undefined] in the source. *)
Record Request := mkRequest {
  cookie_sessionId : option string;   (* req.cookies?.sessionId *)
  body_username : option string;      (* req.body.username *)
  body_password : option string;      (* req.body.password *)
  body_description : option string;   (* req.body.description *)
  query_isActive : option string;     (* req.query.isActive *)
  query_authError : option string;    (* req.query.authError *)
  params_id : string                  (* req.params.id *)
}.

Definition empty_request : Request :=
  mkRequest None None None None None None "".

(** Exceptions the embedded code can raise. *)
Inductive Error :=
| DescriptionRequired      (* new Error("Description is required") *)
| HeadersSent              (* a response method called after the response was sent *)
| BcryptError.             (* bcrypt.hash or bcrypt.compare rejected *)

Definition error_message (e : Error) : string :=
  match e with
  | DescriptionRequired => "Description is required"
  | HeadersSent => "Cannot set headers after they are sent to the client"
  | BcryptError => "bcrypt"
  end.

(** What a handler hands to res.json, res.send, res.redirect or res.render. *)
Inductive Payload :=
| PMessage (message : string)                          (* { message } *)
| PMessageError (message : string) (error : Error)     (* { message, error } *)
| PTimers (ts : list Timer.t)                          (* an array of timers *)
| PTimer (t : Timer.t)                                 (* one timer *)
| PText (text : string)                                (* res.send(text) *)
| PRedirect (url : string)                             (* res.redirect(url) *)
| PView (view : string) (user : option User.t) (authError : option string).
                                                       (* res.render(view, { user, authError }) *)

(** Store accesses and response-method calls, logged when they are made. *)
Inductive Event :=
| Read (c : Coll)
| Write (c : Coll)
| Status (code : Z)
| Json (p : Payload)
| Send (text : string)
| Cookie (name value : string)
| ClearCookie (name : string)
| Redirect (url : string)
| Render (p : Payload).

#[global] Instance Coll_eq_dec : EqDecision Coll.
Proof. solve_decision. Defined.
#[global] Instance Error_eq_dec : EqDecision Error.
Proof. solve_decision. Defined.
#[global] Instance Payload_eq_dec : EqDecision Payload.
Proof. solve_decision. Defined.
#[global] Instance Event_eq_dec : EqDecision Event.
Proof. solve_decision. Defined.

(** The Express response object: the status code set so far, the cookies
    set so far ([None] as a value is a cleared cookie) and, once the
    response has been sent, its status and payload. *)
Record Response := mkResponse {
  statusCode : Z;
  cookies : list (string * option string);
  sent : option (Z * Payload)
}.

Definition fresh_response : Response := mkResponse 200 [] None.

Definition headersSent (r : Response) : bool :=
  match sent r with Some _ => true | None => false end.

Record State := mkState {
  world : World;
  res : Response;
  log : list Event
}.

Definition start_state (w : World) : State := mkState w fresh_response [].

(** ** The monad of handlers *)

Inductive Outcome (A : Type) :=
| Ok (a : A)
| Throw (e : Error).
Arguments Ok {A} a.
Arguments Throw {A} e.

Definition M (A : Type) : Type := State → Outcome A * State.

Definition ret {A} (a : A) : M A := λ s, (Ok a, s).

Definition bind {A B} (m : M A) (k : A → M B) : M B :=
  λ s, match m s with
       | (Ok a, s') => k a s'
       | (Throw e, s') => (Throw e, s')
       end.

Definition throw {A} (e : Error) : M A := λ s, (Throw e, s).

(** try { body } catch (error) { handler error } *)
Definition try_catch {A} (body : M A) (handler : Error → M A) : M A :=
  λ s, match body s with
       | (Ok a, s') => (Ok a, s')
       | (Throw e, s') => handler e s'
       end.

(** stdpp's monad notations: [x ← m; k] and [m;; k]. *)
#[global] Instance M_ret : MRet M := @ret.
#[global] Instance M_bind : MBind M := λ A B k m, bind m k.

Definition emit (e : Event) : M unit :=
  λ s, (Ok tt, mkState (world s) (res s) (log s ++ [e])).

Definition get_world : M World := λ s, (Ok (world s), s).
Definition put_world (w : World) : M unit :=
  λ s, (Ok tt, mkState w (res s) (log s)).
Definition get_res : M Response := λ s, (Ok (res s), s).
Definition put_res (r : Response) : M unit :=
  λ s, (Ok tt, mkState (world s) r (log s)).

(** ** class db: read() and write(data), one pair per collection *)

Definition TIMERS_read : M (list Timer.t) :=
  emit (Read TIMERS) ;; w ← get_world; ret (timers w).
Definition TIMERS_write (data : list Timer.t) : M unit :=
  emit (Write TIMERS) ;; w ← get_world;
  put_world (mkWorld data (users w) (sessions w)).

Definition USERS_read : M (list User.t) :=
  emit (Read USERS) ;; w ← get_world; ret (users w).
Definition USERS_write (data : list User.t) : M unit :=
  emit (Write USERS) ;; w ← get_world;
  put_world (mkWorld (timers w) data (sessions w)).

Definition SESSIONS_read : M (gmap string Session.t) :=
  emit (Read SESSIONS) ;; w ← get_world; ret (sessions w).
Definition SESSIONS_write (data : gmap string Session.t) : M unit :=
  emit (Write SESSIONS) ;; w ← get_world;
  put_world (mkWorld (timers w) (users w) data).

(** ** The Express response methods the handlers call

    Every method returns the response object itself, so calls chain.
    [res.status] only records the code.  The methods that write headers or
    the body raise once the response has been sent. *)

(** The values a handler's [session] variable can hold: what
    [checkSession] returns. *)
Inductive Value :=
| VUndefined
| VSession (s : Session.t)   (* an entry of the sessions object *)
| VRes.                      (* the response object *)

(** JavaScript truthiness: every object is truthy. *)
Definition truthy (v : Value) : bool :=
  match v with
  | VUndefined => false
  | VSession _ | VRes => true
  end.

(** [v.userId]: the response object has no such property. *)
Definition get_userId (v : Value) : option string :=
  match v with
  | VSession s => Some (Session.userId s)
  | VUndefined | VRes => None
  end.

Definition res_status (code : Z) : M Value :=
  emit (Status code);;
  r ← get_res;
  put_res (mkResponse code (cookies r) (sent r));;
  ret VRes.

(** Sending a response: raises if one was sent already. *)
Definition deliver (p : Payload) : M Value :=
  r ← get_res;
  if headersSent r then throw HeadersSent
  else put_res (mkResponse (statusCode r) (cookies r) (Some (statusCode r, p)));;
       ret VRes.

Definition res_json (p : Payload) : M Value :=
  emit (Json p);; deliver p.

Definition res_send (text : string) : M Value :=
  emit (Send text);; deliver (PText text).

Definition res_render (p : Payload) : M Value :=
  emit (Render p);; deliver p.

(** [res.redirect(url)] answers 302 with the location [url]. *)
Definition res_redirect (url : string) : M Value :=
  emit (Redirect url);;
  r ← get_res;
  if headersSent r then throw HeadersSent
  else put_res (mkResponse 302 (cookies r) (Some (302, PRedirect url)));;
       ret VRes.

Definition set_cookie_header (name : string) (value : option string) : M Value :=
  r ← get_res;
  if headersSent r then throw HeadersSent
  else put_res (mkResponse (statusCode r) (cookies r ++ [(name, value)]) (sent r));;
       ret VRes.

Definition res_cookie (name value : string) : M Value :=
  emit (Cookie name value);; set_cookie_header name (Some value).

Definition res_clearCookie (name : string) : M Value :=
  emit (ClearCookie name);; set_cookie_header name None.

(** ** Helpers for JavaScript's treatment of strings that may be undefined *)

(** [!v] is false exactly when [v] is a non-empty string; [nonempty]
    returns that string. *)
Definition nonempty (v : option string) : option string :=
  match v with
  | Some s => if decide (s = "") then None else Some s
  | None => None
  end.

(** The property key [obj[v]] uses: [undefined] is the key "undefined". *)
Definition property_key (v : option string) : string :=
  match v with
  | Some s => s
  | None => "undefined"
  end.

(** ** updateSession and checkSession *)

(** [updateSession(user)]; [sessionId] is the result of its nanoid() call. *)
Definition updateSession (sessionId : string) (user : User.t) : M string :=
  sessions ← SESSIONS_read;
  SESSIONS_write (<[sessionId := Session.mk (User._id user)]> sessions);;
  ret sessionId.

(** [checkSession(req, res)]: on failure it returns what
    [res.status(401).json(...)] returns.  [sessions[sessionId]] is looked
    up among the stored sessions; cookie values in
    [object_prototype_keys], for which JavaScript finds an inherited
    member, are outside the model. *)
Definition checkSession (req : Request) : M Value :=
  let sessionId := cookie_sessionId req in
  sessions ← SESSIONS_read;
  let session := sessions !! property_key sessionId in
  match nonempty sessionId, session with
  | Some _, Some session => ret (VSession session)
  | _, _ =>
      res_status 401;;
      res_json (PMessage "Unauthorized")
  end.

(** ** The route handlers *)

(** Array.prototype.find on the users: the first user that satisfies [P]. *)
Definition find_user (P : User.t → Prop) `{∀ u, Decision (P u)}
    (l : list User.t) : option User.t :=
  snd <$> list_find P l.

(** POST /signup.  [hashed] is the outcome of bcrypt.hash(password, 10)
    ([None]: it rejected), [newId] the nanoid() of the user and [sessionId]
    the nanoid() of updateSession. *)
Definition signup (hashed : option string) (newId sessionId : string)
    (req : Request) : M unit :=
  match nonempty (body_username req), nonempty (body_password req) with
  | Some username, Some password =>
      users ← USERS_read;
      match find_user (λ user, User.username user = username) users with
      | Some existingUser =>
          res_status 409;;
          res_json (PMessage "Username already taken");;
          ret tt
      | None =>
          try_catch
            (hashedPassword ← match hashed with
                              | Some h => ret h
                              | None => throw BcryptError
                              end;
             let newUser := User.mk newId username hashedPassword in
             USERS_write (users ++ [newUser]);;
             sessionId ← updateSession sessionId newUser;
             res_cookie "sessionId" sessionId;;
             res_redirect "/";;
             ret tt)
            (λ error,
             res_status 500;;
             res_json (PMessageError "Error creating user" error);;
             ret tt)
      end
  | _, _ =>
      res_status 400;;
      res_json (PMessage "Username and password are required");;
      ret tt
  end.

(** POST /login.  [match_] is the outcome of
    bcrypt.compare(password, user.password) ([None]: it rejected). *)
Definition login (match_ : option bool) (sessionId : string)
    (req : Request) : M unit :=
  match nonempty (body_username req), nonempty (body_password req) with
  | Some username, Some password =>
      users ← USERS_read;
      match find_user (λ user, User.username user = username) users with
      | None =>
          res_status 404;;
          res_json (PMessage "User not found");;
          ret tt
      | Some user =>
          try_catch
            (matched ← match match_ with
                       | Some b => ret b
                       | None => throw BcryptError
                       end;
             if negb matched then
               res_status 401;;
               res_json (PMessage "Incorrect password");;
               ret tt
             else
               sessionId ← updateSession sessionId user;
               res_cookie "sessionId" sessionId;;
               res_redirect "/";;
               ret tt)
            (λ error,
             res_status 500;;
             res_json (PMessageError "Error during login" error);;
             ret tt)
      end
  | _, _ =>
      res_status 400;;
      res_json (PMessage "Username and password are required");;
      ret tt
  end.

(** GET /logout *)
Definition logout (req : Request) : M unit :=
  session ← checkSession req;
  if negb (truthy session) then ret tt
  else
    sessions ← SESSIONS_read;
    SESSIONS_write (delete (property_key (cookie_sessionId req)) sessions);;
    res_clearCookie "sessionId";;
    res_redirect "/";;
    ret tt.

(** GET /.  As in [checkSession], [sessions[sessionId]] is looked up
    among the stored sessions. *)
Definition home (req : Request) : M unit :=
  user ← match nonempty (cookie_sessionId req) with
         | Some sessionId =>
             sessions ← SESSIONS_read;
             match sessions !! sessionId with
             | Some session =>
                 users ← USERS_read;
                 ret (find_user (λ user, User._id user = Session.userId session) users)
             | None => ret None
             end
         | None => ret None
         end;
  res_render (PView "index" user
                (if decide (query_authError req = Some "true")
                 then Some "Wrong username or password"
                 else query_authError req));;
  ret tt.

(** GET /api/timers *)
Definition list_timers (req : Request) : M unit :=
  session ← checkSession req;
  if negb (truthy session) then ret tt
  else
    let isActiveBool := bool_decide (query_isActive req = Some "true") in
    timers ← TIMERS_read;
    let filteredTimers :=
      filter (λ timer, Timer.isActive timer = isActiveBool
                       ∧ Timer.userId timer = get_userId session) timers in
    res_json (PTimers filteredTimers);;
    ret tt.

(** POST /api/timers.  [newId] is the nanoid() and [now] the Date.now()
    of the new timer. *)
Definition start_timer (newId : string) (now : Z) (req : Request) : M unit :=
  session ← checkSession req;
  if negb (truthy session) then ret tt
  else
    try_catch
      (match nonempty (body_description req) with
       | None => throw DescriptionRequired
       | Some description =>
           let newTimer :=
             Timer.mk newId now description true (get_userId session) 0 None None in
           timers ← TIMERS_read;
           TIMERS_write (timers ++ [newTimer]);;
           res_status 201;;
           res_json (PTimer newTimer);;
           ret tt
       end)
      (λ error,
       res_status 400;;
       res_json (PMessage (error_message error));;
       ret tt).

(** The three assignments of the stop handler, in order; [timer.end],
    read back for the duration, is the [now] just assigned. *)
Definition stopped (now : Z) (timer : Timer.t) : Timer.t :=
  let timer := Timer.set_isActive false timer in
  let timer := Timer.set_end now timer in
  Timer.set_duration (now - Timer.start timer) timer.

(** POST /api/timers/:id/stop.  [now] is the Date.now() of the handler.
    [find] yields the first matching timer; assigning to it updates the
    array that is then written back. *)
Definition stop_timer (now : Z) (req : Request) : M unit :=
  session ← checkSession req;
  if negb (truthy session) then ret tt
  else
    let id := params_id req in
    timers ← TIMERS_read;
    match list_find (λ t, Timer.id t = id ∧ Timer.userId t = get_userId session) timers with
    | None =>
        res_status 403;;
        res_send "Access denied";;
        ret tt
    | Some (i, timer) =>
        let timer := stopped now timer in
        TIMERS_write (<[i := timer]> timers);;
        res_status 200;;
        res_json (PTimer timer);;
        ret tt
    end.

(** Running a handler on a stored state. *)
Definition run {A} (h : M A) (w : World) : Outcome A * State := h (start_state w).

(** ** The server as a transition system *)

(** One request, with the outcomes of the external calls its handler makes. *)
Inductive Op :=
| OpSignup (hashed : option string) (newId sessionId : string) (req : Request)
| OpLogin (match_ : option bool) (sessionId : string) (req : Request)
| OpLogout (req : Request)
| OpHome (req : Request)
| OpList (req : Request)
| OpStart (newId : string) (now : Z) (req : Request)
| OpStop (now : Z) (req : Request).

Definition handler (op : Op) : M unit :=
  match op with
  | OpSignup hashed newId sessionId req => signup hashed newId sessionId req
  | OpLogin match_ sessionId req => login match_ sessionId req
  | OpLogout req => logout req
  | OpHome req => home req
  | OpList req => list_timers req
  | OpStart newId now req => start_timer newId now req
  | OpStop now req => stop_timer now req
  end.

(** The stored state after the handler has run (to its end or to an
    uncaught exception). *)
Definition step (op : Op) (w : World) : World := world (snd (run (handler op) w)).

(** What the client receives: status and payload of the response sent. *)
Definition response (op : Op) (w : World) : option (Z * Payload) :=
  sent (res (snd (run (handler op) w))).

Definition events (op : Op) (w : World) : list Event :=
  log (snd (run (handler op) w)).

(** The states reached from the empty store by requests served one
    after another, each handler running to its end before the next
    request arrives. *)
Inductive reachable : World → Prop :=
| reachable_initial : reachable initial_world
| reachable_step op w : reachable w → reachable (step op w).

(** The request [req] carries the cookie of a session of user [u]. *)
Definition authenticated (w : World) (req : Request) (u : string) : Prop :=
  ∃ sid, cookie_sessionId req = Some sid ∧ sid ≠ ""
         ∧ sessions w !! sid = Some (Session.mk u).

(** The request carries no session cookie, or one that names no session. *)
Definition unauthenticated (w : World) (req : Request) : Prop :=
  nonempty (cookie_sessionId req) = None
  ∨ sessions w !! property_key (cookie_sessionId req) = None.

(** [session.userId] as the handler body sees it: the userId of the
    session the cookie names, and [undefined] when there is none. *)
Definition caller (w : World) (req : Request) : option string :=
  match nonempty (cookie_sessionId req) with
  | Some sid => Session.userId <$> sessions w !! sid
  | None => None
  end.

(** ** Observations on a run *)

(** The status of the response sent. *)
Definition status (op : Op) (w : World) : option Z := fst <$> response op w.

(** The cookies the response sets. *)
Definition cookies_set (op : Op) (w : World) : list (string * option string) :=
  cookies (res (snd (run (handler op) w))).

(** A request field that is absent or the empty string. *)
Definition missing (v : option string) : Prop := v = None ∨ v = Some "".

(** The values of the [password] properties a payload carries. *)
Definition payload_passwords (p : Payload) : list string :=
  match p with
  | PView _ (Some user) _ => [User.password user]
  | _ => []
  end.

(** The payload a response-method call is given. *)
Definition event_payload (e : Event) : option Payload :=
  match e with
  | Json p | Render p => Some p
  | Send text => Some (PText text)
  | Redirect url => Some (PRedirect url)
  | Read _ | Write _ | Status _ | Cookie _ _ | ClearCookie _ => None
  end.

(** [issues op sid req]: [op] is a register or authenticate request [req]
    whose updateSession call draws the identifier [sid]. *)
Inductive issues : Op → string → Request → Prop :=
| issues_signup hashed newId sid req : issues (OpSignup hashed newId sid req) sid req
| issues_login match_ sid req : issues (OpLogin match_ sid req) sid req.

(** ** A sample history, used to instantiate the theorems *)

Module Sample.
Definition credentials (username password : string) : Request :=
  mkRequest None (Some username) (Some password) None None None "".
Definition describe (sid description : string) : Request :=
  mkRequest (Some sid) None None (Some description) None None "".
Definition flag (sid : string) (isActive : option string) : Request :=
  mkRequest (Some sid) None None None isActive None "".
Definition target (sid id : string) : Request :=
  mkRequest (Some sid) None None None None None id.

(** alice and bob sign up; alice starts two timers and stops the first,
    bob starts one. *)
Definition history : list Op :=
  [ OpSignup (Some "hash-a") "u-alice" "s-alice" (credentials "alice" "pw1");
    OpSignup (Some "hash-b") "u-bob" "s-bob" (credentials "bob" "pw2");
    OpStart "t1" 1000 (describe "s-alice" "write spec");
    OpStart "t2" 1500 (describe "s-alice" "review");
    OpStart "t3" 1700 (describe "s-bob" "lunch");
    OpStop 2500 (target "s-alice" "t1") ].

Definition w : World := foldl (λ w op, step op w) initial_world history.
End Sample.

(** ** Well-formed stores *)

(** The shape the handlers give a timer: progress 0; no end and no
    duration while active; once stopped, both set, with
    duration = end - start. *)
Definition well_formed_timer (t : Timer.t) : Prop :=
  Timer.progress t = 0
  ∧ if Timer.isActive t
    then Timer.end_ t = None ∧ Timer.duration t = None
    else ∃ e, Timer.end_ t = Some e ∧ Timer.duration t = Some (e - Timer.start t).


(** [persists t t']: [t'] is timer [t] at a later time: the same id,
    owner, description, start and progress, and stopped if [t] was. *)
Definition persists (t t' : Timer.t) : Prop :=
  Timer.id t' = Timer.id t
  ∧ Timer.userId t' = Timer.userId t
  ∧ Timer.description t' = Timer.description t
  ∧ Timer.start t' = Timer.start t
  ∧ Timer.progress t' = Timer.progress t
  ∧ (Timer.isActive t = false → Timer.isActive t' = false).

(** The request a handler is run on. *)
Definition op_request (op : Op) : Request :=
  match op with
  | OpSignup _ _ _ req | OpLogin _ _ req | OpLogout req | OpHome req
  | OpList req | OpStart _ _ req | OpStop _ req => req
  end.

(** The names every JavaScript object inherits from Object.prototype:
    for a cookie with one of these values [sessions[sessionId]] is the
    inherited member, which is truthy and has no userId. *)
Definition object_prototype_keys : list string :=
  [ "constructor"; "__defineGetter__"; "__defineSetter__"; "hasOwnProperty";
    "__lookupGetter__"; "__lookupSetter__"; "isPrototypeOf";
    "propertyIsEnumerable"; "toString"; "valueOf"; "__proto__";
    "toLocaleString" ].

(** The handlers that begin with checkSession. *)
Definition protected (op : Op) : bool :=
  match op with
  | OpLogout _ | OpList _ | OpStart _ _ _ | OpStop _ _ => true
  | OpSignup _ _ _ _ | OpLogin _ _ _ | OpHome _ => false
  end.

(** ** Overlapping requests

    The handlers of signup and login are async: each runs up to its
    await (bcrypt.hash, bcrypt.compare) in one piece, is suspended there
    with what it has read, and its continuation runs later in one piece,
    on the store as it is by then.  Other requests can be served in
    between.  The other handlers contain no await. *)

(** A handler suspended at its await, with the variables its
    continuation uses. *)
Inductive Pending :=
| PendingSignup (users : list User.t) (username password : string)
| PendingLogin (user : User.t) (password : string).

(** POST /signup up to [await bcrypt.hash(password, 10)]. *)
Definition signup_begin (req : Request) : M (option Pending) :=
  match nonempty (body_username req), nonempty (body_password req) with
  | Some username, Some password =>
      users ← USERS_read;
      match find_user (λ user, User.username user = username) users with
      | Some existingUser =>
          res_status 409;;
          res_json (PMessage "Username already taken");;
          ret None
      | None => ret (Some (PendingSignup users username password))
      end
  | _, _ =>
      res_status 400;;
      res_json (PMessage "Username and password are required");;
      ret None
  end.

(** POST /signup from the outcome of bcrypt.hash on: [users] is the array
    read before the await. *)
Definition signup_resume (hashed : option string) (newId sessionId : string)
    (users : list User.t) (username : string) : M unit :=
  try_catch
    (hashedPassword ← match hashed with
                      | Some h => ret h
                      | None => throw BcryptError
                      end;
     let newUser := User.mk newId username hashedPassword in
     USERS_write (users ++ [newUser]);;
     sessionId ← updateSession sessionId newUser;
     res_cookie "sessionId" sessionId;;
     res_redirect "/";;
     ret tt)
    (λ error,
     res_status 500;;
     res_json (PMessageError "Error creating user" error);;
     ret tt).

(** POST /login up to [await bcrypt.compare(password, user.password)]. *)
Definition login_begin (req : Request) : M (option Pending) :=
  match nonempty (body_username req), nonempty (body_password req) with
  | Some username, Some password =>
      users ← USERS_read;
      match find_user (λ user, User.username user = username) users with
      | None =>
          res_status 404;;
          res_json (PMessage "User not found");;
          ret None
      | Some user => ret (Some (PendingLogin user password))
      end
  | _, _ =>
      res_status 400;;
      res_json (PMessage "Username and password are required");;
      ret None
  end.

(** POST /login from the outcome of bcrypt.compare on: [user] is the
    record found before the await. *)
Definition login_resume (match_ : option bool) (sessionId : string)
    (user : User.t) : M unit :=
  try_catch
    (matched ← match match_ with
               | Some b => ret b
               | None => throw BcryptError
               end;
     if negb matched then
       res_status 401;;
       res_json (PMessage "Incorrect password");;
       ret tt
     else
       sessionId ← updateSession sessionId user;
       res_cookie "sessionId" sessionId;;
       res_redirect "/";;
       ret tt)
    (λ error,
     res_status 500;;
     res_json (PMessageError "Error during login" error);;
     ret tt).

(** A suspended request: its own response object and log, and where it
    waits. *)
Record Suspended := mkSuspended {
  suspended_res : Response;
  suspended_log : list Event;
  suspended_at : Pending
}.

(** The server between two pieces of handler code: the store and the
    requests suspended at an await. *)
Record System := mkSystem {
  store : World;
  suspended : list Suspended
}.


(** The handlers that contain an await. *)
Definition awaits (op : Op) : bool :=
  match op with
  | OpSignup _ _ _ _ | OpLogin _ _ _ => true
  | OpLogout _ | OpHome _ | OpList _ | OpStart _ _ _ | OpStop _ _ => false
  end.

(** A new request runs up to its await, or to its end. *)
Definition begin (h : M (option Pending)) (sys : System) : System :=
  match h (start_state (store sys)) with
  | (Ok (Some k), s) =>
      mkSystem (world s) (suspended sys ++ [mkSuspended (res s) (log s) k])
  | (_, s) => mkSystem (world s) (suspended sys)
  end.

(** The continuation [h] of the [i]th suspended request runs to its end,
    on the store as it is now. *)
Definition resume (h : M unit) (i : nat) (r : Response) (lg : list Event)
    (sys : System) : System :=
  mkSystem (world (snd (h (mkState (store sys) r lg)))) (delete i (suspended sys)).

(** One piece of handler code runs: a handler without await from start to
    end, a signup or a login up to its await, or the continuation of a
    suspended one. *)
Inductive sys_step : System → System → Prop :=
| sys_serve op sys :
    awaits op = false →
    sys_step sys (mkSystem (step op (store sys)) (suspended sys))
| sys_signup_begin req sys :
    sys_step sys (begin (signup_begin req) sys)
| sys_login_begin req sys :
    sys_step sys (begin (login_begin req) sys)
| sys_signup_resume i r lg users username password hashed newId sessionId sys :
    suspended sys !! i = Some (mkSuspended r lg (PendingSignup users username password)) →
    sys_step sys (resume (signup_resume hashed newId sessionId users username) i r lg sys)
| sys_login_resume i r lg user password match_ sessionId sys :
    suspended sys !! i = Some (mkSuspended r lg (PendingLogin user password)) →
    sys_step sys (resume (login_resume match_ sessionId user) i r lg sys).



(** ** class db over the file system

    The handlers above work on parsed collections.  This is the class
    under them: createDB, read and write on the directory [db] beside
    index.js.  JSON.stringify (plain and indented) and JSON.parse are
    parameters; file names are flat names in that directory. *)
Module Db.

(** The directory: absent, or present with the contents of its files. *)
Inductive Dir :=
| NoDir
| Files (files : gmap string string).

Inductive IOError :=
| ENOENT        (* no such file or directory *)
| EEXIST        (* mkdirSync on an existing directory *)
| SyntaxError.  (* JSON.parse on malformed text *)

Inductive Result (B : Type) :=
| Done (b : B)
| Raise (e : IOError).
Arguments Done {B} b.
Arguments Raise {B} e.

Definition IO (B : Type) : Type := Dir → Result B * Dir.

#[global] Instance IO_ret : MRet IO := λ B b fs, (Done b, fs).
#[global] Instance IO_bind : MBind IO := λ B C k m fs,
  match m fs with
  | (Done b, fs') => k b fs'
  | (Raise e, fs') => (Raise e, fs')
  end.

Definition raise {B} (e : IOError) : IO B := λ fs, (Raise e, fs).

(** fs.existsSync(dirPath), fs.existsSync(filePath) *)
Definition existsSync_dir : IO bool :=
  λ fs, (Done (match fs with NoDir => false | Files _ => true end), fs).
Definition existsSync (path : string) : IO bool :=
  λ fs, (Done (match fs with
               | NoDir => false
               | Files files => bool_decide (is_Some (files !! path))
               end), fs).

(** fs.mkdirSync(dirPath) *)
Definition mkdirSync : IO unit :=
  λ fs, match fs with
        | NoDir => (Done tt, Files ∅)
        | Files _ => (Raise EEXIST, fs)
        end.

(** fs.writeFileSync(path, data, "utf-8") *)
Definition writeFileSync (path data : string) : IO unit :=
  λ fs, match fs with
        | NoDir => (Raise ENOENT, fs)
        | Files files => (Done tt, Files (<[path := data]> files))
        end.

(** fs.readFileSync(path, "utf-8") *)
Definition readFileSync (path : string) : IO string :=
  λ fs, match fs with
        | NoDir => (Raise ENOENT, fs)
        | Files files =>
            match files !! path with
            | Some data => (Done data, fs)
            | None => (Raise ENOENT, fs)
            end
        end.

Section db.
Context {A : Type}.
Variable stringify : A → string.            (* JSON.stringify(data) *)
Variable stringify_indented : A → string.   (* JSON.stringify(data, null, 2) *)
Variable parse : string → option A.         (* JSON.parse(data); None: it throws *)

(** The fields the constructor is given; dirPath is the directory and
    filePath the file name in it. *)
Record t := mk { dbName : string; initialData : A }.

Definition filePath (this : t) : string := dbName this +:+ ".json".

Definition createDB (this : t) : IO unit :=
  dir ← existsSync_dir;
  (if negb dir then mkdirSync else mret tt);;
  file ← existsSync (filePath this);
  if negb file then writeFileSync (filePath this) (stringify (initialData this))
  else mret tt.

(** new db(dbName, initialData) *)
Definition constructor (dbName : string) (initialData : A) : IO t :=
  let this := mk dbName initialData in
  createDB this;; mret this.

Definition read (this : t) : IO A :=
  createDB this;;
  data ← readFileSync (filePath this);
  match parse data with
  | Some v => mret v
  | None => raise SyntaxError
  end.

Definition write (this : t) (data : A) : IO unit :=
  let newData := stringify_indented data in
  writeFileSync (filePath this) newData.
End db.

Arguments t : clear implicits.
Arguments mk {A} dbName initialData.

(** A small codec, for instances: a store of flags. *)
Definition flag_text (b : bool) : string := if b then "true" else "false".
Definition flag_indented (b : bool) : string := if b then "true" else "false".
Definition flag_parse (s : string) : option bool :=
  if decide (s = "true") then Some true
  else if decide (s = "false") then Some false
  else None.
End Db.

(** * Tactics *)

(** Unfold the monad and the primitive operations and compute. *)
Ltac run_monad :=
  unfold SESSIONS_read, SESSIONS_write, USERS_read, USERS_write,
    TIMERS_read, TIMERS_write, res_status, res_json, res_send, res_render,
    res_redirect, res_cookie, res_clearCookie, set_cookie_header, deliver,
    emit, get_world, put_world, get_res, put_res, headersSent,
    fresh_response, start_state, run,
    mbind, M_bind, bind, mret, M_ret, ret, throw, try_catch;
  cbn.

(** One branching point of a handler: a test on a request field, a lookup
    in a collection, or the outcome of an external call. *)
Ltac handler_case :=
  match goal with
  | |- context [match nonempty ?x with _ => _ end] => destruct (nonempty x) eqn:?
  | |- context [match find_user ?P ?l with _ => _ end] => destruct (find_user P l) eqn:?
  | |- context [match list_find ?P ?l with _ => _ end] =>
      destruct (list_find P l) as [[??]|] eqn:?
  | |- context [match ?m !! ?k with _ => _ end] => destruct (m !! k) eqn:?
  | |- context [match ?x with Some _ => _ | None => _ end] => is_var x; destruct x
  | |- context [if negb ?x then _ else _] => is_var x; destruct x
  end.

Ltac run_handler :=
  unfold step, response, events, handler, signup, login, logout, home, list_timers,
    start_timer, stop_timer, checkSession, updateSession;
  run_monad; repeat (handler_case; cbn).

(** Unfold the file-system monad and the operations of class db. *)
Ltac run_io :=
  unfold Db.read, Db.write, Db.constructor, Db.createDB, Db.existsSync_dir,
    Db.existsSync, Db.mkdirSync, Db.writeFileSync, Db.readFileSync, Db.raise,
    mbind, Db.IO_bind, mret, Db.IO_ret;
  cbn.

(** The same for the two halves of signup and login. *)
Ltac run_half :=
  unfold begin, resume, signup_begin, signup_resume, login_begin, login_resume,
    updateSession;
  run_monad; repeat (handler_case; cbn).

(** * Properties *)

(** ** Running the monad *)

Lemma bind_eq {A B} (m : M A) (k : A → M B) s :
  (x ← m; k x) s = match m s with
                   | (Ok a, s') => k a s'
                   | (Throw e, s') => (Throw e, s')
                   end.
Proof. reflexivity. Qed.

Lemma nonempty_Some s : s ≠ "" → nonempty (Some s) = Some s.
Proof. intros Hs. unfold nonempty. by destruct (decide (s = "")). Qed.

Lemma nonempty_None v : nonempty v = None ↔ v = None ∨ v = Some "".
Proof.
  unfold nonempty. destruct v as [s|]; [|by split; [left|]].
  destruct (decide (s = "")) as [->|Hs].
  - by split; [right|].
  - split; [done|]. intros [?|[= ?]]; done.
Qed.

Lemma nonempty_inv v s : nonempty v = Some s → v = Some s ∧ s ≠ "".
Proof.
  unfold nonempty. destruct v as [s'|]; [|done].
  destruct (decide (s' = "")); [done|]. by intros [= ->].
Qed.

(** [checkSession] on the cookie of a live session: one read, no response
    call, and the session record is returned. *)
Lemma checkSession_authenticated w r lg req u :
  authenticated w req u →
  checkSession req (mkState w r lg)
  = (Ok (VSession (Session.mk u)), mkState w r (lg ++ [Read SESSIONS])).
Proof.
  intros (sid & Hc & Hne & Hs). unfold checkSession.
  rewrite Hc, nonempty_Some by done. run_monad. by rewrite Hs.
Qed.

(** [checkSession] without a live session: it answers 401 and returns the
    response object. *)
Lemma checkSession_unauthenticated w lg req :
  unauthenticated w req →
  checkSession req (mkState w fresh_response lg)
  = (Ok VRes,
     mkState w (mkResponse 401 [] (Some (401, PMessage "Unauthorized")))
       (lg ++ [Read SESSIONS; Status 401; Json (PMessage "Unauthorized")])).
Proof.
  intros [H|H]; unfold checkSession; run_monad; rewrite H;
    [|destruct (nonempty _)]; cbn; by rewrite <- !(assoc_L (++)).
Qed.


Lemma reachable_foldl ops w :
  reachable w → reachable (foldl (λ w op, step op w) w ops).
Proof.
  revert w. induction ops as [|op ops IH]; intros w Hw; cbn; [done|].
  apply IH. by constructor.
Qed.

Lemma Sample_reachable : reachable Sample.w.
Proof. apply reachable_foldl. constructor. Qed.

Example Sample_timers :
  timers Sample.w
  = [ Timer.mk "t1" 1000 "write spec" false (Some "u-alice") 0 (Some 2500) (Some 1500);
      Timer.mk "t2" 1500 "review" true (Some "u-alice") 0 None None;
      Timer.mk "t3" 1700 "lunch" true (Some "u-bob") 0 None None ].
Proof. by vm_compute. Qed.

(** ** Listing timers *)

Lemma list_timers_run w req u :
  authenticated w req u →
  run (list_timers req) w
  = let b := bool_decide (query_isActive req = Some "true") in
    let result :=
      filter (λ t, Timer.isActive t = b ∧ Timer.userId t = Some u) (timers w) in
    (Ok tt, mkState w (mkResponse 200 [] (Some (200, PTimers result)))
              [Read SESSIONS; Read TIMERS; Json (PTimers result)]).
Proof.
  intros Ha. unfold run, list_timers, start_state.
  rewrite bind_eq, (checkSession_authenticated _ _ _ _ _ Ha). reflexivity.
Qed.

(** C6: for an authenticated user [u] and a filter [b], the list operation
    answers exactly the stored timers whose userId is [u] and whose
    isActive is [b], in storage order (a filter of the stored list: a
    subsequence of it with the same members), none of them owned by
    another user, and it leaves the store as it was. *)
Theorem list_timers_exact w req u b :
  authenticated w req u →
  bool_decide (query_isActive req = Some "true") = b →
  ∃ result,
    response (OpList req) w = Some (200, PTimers result)
    ∧ step (OpList req) w = w
    ∧ result = filter (λ t, Timer.userId t = Some u ∧ Timer.isActive t = b) (timers w)
    ∧ result `sublist_of` timers w
    ∧ (∀ t, t ∈ result ↔ t ∈ timers w ∧ Timer.userId t = Some u ∧ Timer.isActive t = b)
    ∧ Forall (λ t, Timer.userId t = Some u) result.
Proof.
  intros Ha Hb.
  exists (filter (λ t, Timer.userId t = Some u ∧ Timer.isActive t = b) (timers w)).
  unfold response, step, handler. rewrite (list_timers_run _ _ _ Ha), Hb. cbn.
  split_and!.
  - do 3 f_equal. apply list_filter_iff. tauto.
  - by destruct w.
  - done.
  - apply sublist_filter.
  - intros t. rewrite list_elem_of_filter. tauto.
  - apply Forall_forall. intros t. rewrite list_elem_of_filter. tauto.
Qed.

Lemma list_timers_exact_witness :
  authenticated Sample.w (Sample.flag "s-alice" (Some "true")) "u-alice"
  ∧ bool_decide (query_isActive (Sample.flag "s-alice" (Some "true")) = Some "true") = true
  ∧ ∃ result,
      response (OpList (Sample.flag "s-alice" (Some "true"))) Sample.w
      = Some (200, PTimers result)
      ∧ result = [Timer.mk "t2" 1500 "review" true (Some "u-alice") 0 None None].
Proof.
  assert (authenticated Sample.w (Sample.flag "s-alice" (Some "true")) "u-alice") as Ha.
  { exists "s-alice". by vm_compute. }
  split; [exact Ha|]. split; [reflexivity|].
  destruct (list_timers_exact Sample.w (Sample.flag "s-alice" (Some "true"))
              "u-alice" true Ha eq_refl) as (result & Hr & _ & Hf & _).
  exists result. split; [exact Hr|]. rewrite Hf. by vm_compute.
Defined.



(** The flag values the claim names, on the sample store. *)
Example list_timers_flag_absent_1 :
  response (OpList (Sample.flag "s-alice" None)) Sample.w
  = response (OpList (Sample.flag "s-alice" (Some "1"))) Sample.w
  ∧ response (OpList (Sample.flag "s-alice" (Some "1"))) Sample.w
    = response (OpList (Sample.flag "s-alice" (Some "false"))) Sample.w.
Proof. by vm_compute. Qed.

(** ** Stopping a timer *)

(** The handler after a successful session check. *)
Lemma stop_timer_authenticated w req u now :
  authenticated w req u →
  run (stop_timer now req) w
  = match list_find (λ t, Timer.id t = params_id req ∧ Timer.userId t = Some u)
            (timers w) with
    | None =>
        (Ok tt, mkState w (mkResponse 403 [] (Some (403, PText "Access denied")))
                  [Read SESSIONS; Read TIMERS; Status 403; Send "Access denied"])
    | Some (i, timer) =>
        let timer := stopped now timer in
        (Ok tt, mkState (mkWorld (<[i := timer]> (timers w)) (users w) (sessions w))
                  (mkResponse 200 [] (Some (200, PTimer timer)))
                  [Read SESSIONS; Read TIMERS; Write TIMERS; Status 200;
                   Json (PTimer timer)])
    end.
Proof.
  intros Ha. unfold run, stop_timer, start_state.
  rewrite bind_eq, (checkSession_authenticated _ _ _ _ _ Ha).
  run_monad. by destruct (list_find _ _) as [[i timer]|].
Qed.

(** C4: when no stored timer has both the requested id and the caller's
    userId (the id names no timer, or only timers of other users), the
    stop operation answers 403 "Access denied" (one and the same response
    in both cases) and makes no write: the store is unchanged. *)
Theorem stop_timer_forbidden w req u now :
  authenticated w req u →
  (∀ t, t ∈ timers w → Timer.id t = params_id req → Timer.userId t ≠ Some u) →
  run (stop_timer now req) w
  = (Ok tt, mkState w (mkResponse 403 [] (Some (403, PText "Access denied")))
              [Read SESSIONS; Read TIMERS; Status 403; Send "Access denied"]).
Proof.
  intros Ha Hnone. rewrite (stop_timer_authenticated _ _ _ _ Ha).
  destruct (list_find _ _) as [[i timer]|] eqn:Hfind; [|done].
  apply list_find_Some in Hfind as (Hi & [Hid Hu] & _).
  destruct (Hnone timer); [by eapply list_elem_of_lookup_2|done..].
Qed.

(** bob names alice's timer "t2". *)
Lemma stop_timer_forbidden_witness :
  authenticated Sample.w (Sample.target "s-bob" "t2") "u-bob"
  ∧ (∀ t, t ∈ timers Sample.w → Timer.id t = "t2" → Timer.userId t ≠ Some "u-bob")
  ∧ step (OpStop 3000 (Sample.target "s-bob" "t2")) Sample.w = Sample.w
  ∧ response (OpStop 3000 (Sample.target "s-bob" "t2")) Sample.w
    = Some (403, PText "Access denied").
Proof.
  assert (authenticated Sample.w (Sample.target "s-bob" "t2") "u-bob") as Ha.
  { exists "s-bob". by vm_compute. }
  assert (∀ t, t ∈ timers Sample.w → Timer.id t = "t2" → Timer.userId t ≠ Some "u-bob")
    as Hnone.
  { intros t. rewrite Sample_timers, !elem_of_cons, elem_of_nil.
    intros [->|[->|[->|[]]]]; by vm_compute. }
  split; [exact Ha|]. split; [exact Hnone|].
  unfold step, response, handler.
  rewrite (stop_timer_forbidden _ _ _ 3000 Ha Hnone). by split.
Defined.

(** The same response for an id that names no timer at all. *)
Example stop_timer_unknown_id :
  run (stop_timer 3000 (Sample.target "s-bob" "nope")) Sample.w
  = run (stop_timer 3000 (Sample.target "s-bob" "t2")) Sample.w.
Proof. by vm_compute. Qed.

Lemma list_find_unique_id (l : list Timer.t) i tm (u : string) :
  NoDup (Timer.id <$> l) →
  l !! i = Some tm →
  Timer.userId tm = Some u →
  list_find (λ t, Timer.id t = Timer.id tm ∧ Timer.userId t = Some u) l = Some (i, tm).
Proof.
  intros Hnd Hi Hu. apply list_find_Some. split_and!; [done..|].
  intros j y Hj Hlt [Hid _].
  assert (j = i); [|lia].
  eapply NoDup_lookup; [exact Hnd|..]; rewrite list_lookup_fmap.
  - by rewrite Hj.
  - rewrite Hi. cbn. by rewrite Hid.
Qed.

(** C5: stopping an active timer of the caller sets isActive to false,
    end to the current time and duration to end - start on that timer,
    writes the timers collection back, and answers 200 with the updated
    timer; its id, userId, description, start and progress, every other
    timer, and the other collections are unchanged. *)
Theorem stop_timer_owner w req u now i tm :
  authenticated w req u →
  NoDup (Timer.id <$> timers w) →
  timers w !! i = Some tm →
  Timer.id tm = params_id req →
  Timer.userId tm = Some u →
  Timer.isActive tm = true →
  let tm' := Timer.mk (Timer.id tm) (Timer.start tm) (Timer.description tm) false
               (Timer.userId tm) (Timer.progress tm)
               (Some now) (Some (now - Timer.start tm)) in
  run (stop_timer now req) w
  = (Ok tt, mkState (mkWorld (<[i := tm']> (timers w)) (users w) (sessions w))
              (mkResponse 200 [] (Some (200, PTimer tm')))
              [Read SESSIONS; Read TIMERS; Write TIMERS; Status 200; Json (PTimer tm')])
  ∧ (<[i := tm']> (timers w)) !! i = Some tm'
  ∧ length (<[i := tm']> (timers w)) = length (timers w)
  ∧ ∀ j, j ≠ i → (<[i := tm']> (timers w)) !! j = timers w !! j.
Proof.
  intros Ha Hnd Hi Hid Hu Hact tm'. split_and!.
  - rewrite (stop_timer_authenticated _ _ _ _ Ha), <- Hid.
    by rewrite (list_find_unique_id _ _ _ _ Hnd Hi Hu).
  - apply list_lookup_insert_eq. by eapply lookup_lt_Some.
  - apply length_insert.
  - intros j Hj. by apply list_lookup_insert_ne.
Qed.

(** alice stops her running timer "t2" (index 1) at time 4000. *)
Lemma stop_timer_owner_witness :
  let req := Sample.target "s-alice" "t2" in
  let tm := Timer.mk "t2" 1500 "review" true (Some "u-alice") 0 None None in
  authenticated Sample.w req "u-alice"
  ∧ NoDup (Timer.id <$> timers Sample.w)
  ∧ timers Sample.w !! 1%nat = Some tm
  ∧ timers (step (OpStop 4000 req) Sample.w)
    = [ Timer.mk "t1" 1000 "write spec" false (Some "u-alice") 0 (Some 2500) (Some 1500);
        Timer.mk "t2" 1500 "review" false (Some "u-alice") 0 (Some 4000) (Some 2500);
        Timer.mk "t3" 1700 "lunch" true (Some "u-bob") 0 None None ].
Proof.
  intros req tm.
  assert (authenticated Sample.w req "u-alice") as Ha.
  { exists "s-alice". by vm_compute. }
  assert (NoDup (Timer.id <$> timers Sample.w)) as Hnd.
  { apply (bool_decide_unpack _). by vm_compute. }
  assert (timers Sample.w !! 1%nat = Some tm) as Hi by (by vm_compute).
  split; [exact Ha|]. split; [exact Hnd|]. split; [exact Hi|].
  unfold step, handler.
  destruct (stop_timer_owner Sample.w req "u-alice" 4000 1%nat tm
              Ha Hnd Hi eq_refl eq_refl eq_refl) as [-> _].
  by vm_compute.
Defined.

(** ** Starting a timer *)

Lemma start_timer_authenticated w req u newId now :
  authenticated w req u →
  run (start_timer newId now req) w
  = match nonempty (body_description req) with
    | None =>
        (Ok tt, mkState w
                  (mkResponse 400 [] (Some (400, PMessage "Description is required")))
                  [Read SESSIONS; Status 400; Json (PMessage "Description is required")])
    | Some description =>
        let newTimer := Timer.mk newId now description true (Some u) 0 None None in
        (Ok tt, mkState (mkWorld (timers w ++ [newTimer]) (users w) (sessions w))
                  (mkResponse 201 [] (Some (201, PTimer newTimer)))
                  [Read SESSIONS; Read TIMERS; Write TIMERS; Status 201;
                   Json (PTimer newTimer)])
    end.
Proof.
  intros Ha. unfold run, start_timer, start_state.
  rewrite bind_eq, (checkSession_authenticated _ _ _ _ _ Ha).
  run_monad. by destruct (nonempty _).
Qed.

(** C9: starting a timer with a non-empty description creates a timer
    with isActive = true, progress = 0, start = the creation time and
    userId = the caller, answers it with 201, and appends it to the store;
    a list request of the same user made next contains that timer exactly
    once when its flag is "true" and not at all otherwise.  [newId], the
    nanoid() of the handler, is new among the stored timer ids. *)
Theorem start_timer_then_list w req lreq u d newId now :
  authenticated w req u →
  body_description req = Some d →
  d ≠ "" →
  newId ∉ (Timer.id <$> timers w) →
  let created := Timer.mk newId now d true (Some u) 0 None None in
  let w' := step (OpStart newId now req) w in
  authenticated w' lreq u →
  response (OpStart newId now req) w = Some (201, PTimer created)
  ∧ timers w' = timers w ++ [created]
  ∧ Timer.isActive created = true
  ∧ Timer.progress created = 0
  ∧ Timer.start created = now
  ∧ Timer.userId created = Some u
  ∧ ∃ listed,
      response (OpList lreq) w' = Some (200, PTimers listed)
      ∧ count_occ Timer.eq_dec listed created
        = if bool_decide (query_isActive lreq = Some "true") then 1%nat else 0%nat.
Proof.
  intros Ha Hd Hne Hfresh created w'.
  assert (timers w' = timers w ++ [created]) as Hw'.
  { unfold w', step, handler.
    by rewrite (start_timer_authenticated _ _ _ _ _ Ha), Hd, nonempty_Some. }
  intros Hl. split_and!; try done.
  - unfold response, handler.
    by rewrite (start_timer_authenticated _ _ _ _ _ Ha), Hd, nonempty_Some.
  - eexists. unfold response, handler.
    rewrite (list_timers_run _ _ _ Hl). cbn. split; [done|].
    rewrite Hw', filter_app, count_occ_app.
    match goal with |- (count_occ _ ?l _ + _)%nat = _ =>
      assert (count_occ Timer.eq_dec l created = 0%nat) as ->
    end.
    { apply count_occ_not_In.
      rewrite <- list_elem_of_In, list_elem_of_filter. intros [_ Hin].
      apply Hfresh. apply list_elem_of_fmap. by exists created. }
    rewrite filter_cons, filter_nil.
    destruct (bool_decide (query_isActive lreq = Some "true")).
    + rewrite decide_True by done. by rewrite count_occ_cons_eq.
    + rewrite decide_False; [done|]. by intros [? _].
Qed.

(** alice starts "t4" at time 5000 and lists her active timers. *)
Lemma start_timer_then_list_witness :
  let req := Sample.describe "s-alice" "deploy" in
  let lreq := Sample.flag "s-alice" (Some "true") in
  let created := Timer.mk "t4" 5000 "deploy" true (Some "u-alice") 0 None None in
  authenticated Sample.w req "u-alice"
  ∧ "deploy" ≠ ""
  ∧ ("t4" ∉ Timer.id <$> timers Sample.w)
  ∧ authenticated (step (OpStart "t4" 5000 req) Sample.w) lreq "u-alice"
  ∧ ∃ listed,
      response (OpList lreq) (step (OpStart "t4" 5000 req) Sample.w)
      = Some (200, PTimers listed)
      ∧ count_occ Timer.eq_dec listed created = 1%nat.
Proof.
  intros req lreq created.
  assert (authenticated Sample.w req "u-alice") as Ha.
  { exists "s-alice". by vm_compute. }
  assert ("deploy" ≠ "") as Hne by done.
  assert ("t4" ∉ (Timer.id <$> timers Sample.w)) as Hfresh.
  { apply (bool_decide_unpack _). by vm_compute. }
  assert (authenticated (step (OpStart "t4" 5000 req) Sample.w) lreq "u-alice") as Hl.
  { exists "s-alice". by vm_compute. }
  split; [exact Ha|]. split; [exact Hne|]. split; [exact Hfresh|]. split; [exact Hl|].
  destruct (start_timer_then_list Sample.w req lreq "u-alice" "deploy" "t4" 5000
              Ha eq_refl Hne Hfresh Hl) as (_ & _ & _ & _ & _ & _ & listed & Hr & Hc).
  exists listed. by split.
Defined.

(** ** Case analysis of a handler on an arbitrary request *)

Lemma caller_session w req sid session :
  nonempty (cookie_sessionId req) = Some sid →
  sessions w !! property_key (cookie_sessionId req) = Some session →
  caller w req = Some (Session.userId session).
Proof.
  intros Hc Hs. unfold caller. rewrite Hc.
  apply nonempty_inv in Hc as [Hc _]. rewrite Hc in Hs. cbn in Hs. by rewrite Hs.
Qed.

Lemma caller_no_session w req sid :
  nonempty (cookie_sessionId req) = Some sid →
  sessions w !! property_key (cookie_sessionId req) = None →
  caller w req = None.
Proof.
  intros Hc Hs. unfold caller. rewrite Hc.
  apply nonempty_inv in Hc as [Hc _]. rewrite Hc in Hs. cbn in Hs. by rewrite Hs.
Qed.

Lemma caller_no_cookie w req :
  nonempty (cookie_sessionId req) = None → caller w req = None.
Proof. intros Hc. unfold caller. by rewrite Hc. Qed.

(** What one request can do to the timers: nothing, append one timer
    (start), or overwrite with its stopped version the timer that has the
    requested id and the userId of the caller's session (stop). *)
Lemma step_timers op w :
  timers (step op w) = timers w
  ∨ (∃ newId now req tm, op = OpStart newId now req
       ∧ timers (step op w) = timers w ++ [tm])
  ∨ (∃ now req i t, op = OpStop now req ∧ timers w !! i = Some t
       ∧ Timer.id t = params_id req
       ∧ Timer.userId t = caller w req
       ∧ timers (step op w) = <[i := stopped now t]> (timers w)).
Proof.
  destruct op; run_handler; try (left; reflexivity).
  1-3: right; left; by repeat eexists.
  all: right; right;
    match goal with H : list_find _ _ = Some _ |- _ =>
      apply list_find_Some in H as (? & [? ?] & _) end;
    eexists _, _, _, _; split_and!; try done.
  - by erewrite caller_session.
  - by erewrite caller_no_session.
  - by erewrite caller_no_cookie.
Qed.

(** ** Stopped timers *)

(** C3, as stated, fails: on the sample store, reached by six requests,
    timer "t1" is stopped (end 2500, duration 1500); a second stop request
    of its owner at time 9000 overwrites end and duration. *)
Lemma stopped_timer_changes_on_second_stop :
  ¬ (∀ op w i t,
       reachable w → timers w !! i = Some t → Timer.isActive t = false →
       timers (step op w) !! i = Some t).
Proof.
  intros Hclaim.
  specialize (Hclaim (OpStop 9000 (Sample.target "s-alice" "t1")) Sample.w 0%nat
                (Timer.mk "t1" 1000 "write spec" false (Some "u-alice") 0
                   (Some 2500) (Some 1500))
                Sample_reachable).
  vm_compute in Hclaim. by specialize (Hclaim eq_refl eq_refl).
Qed.

(** A request whose [session.userId] is [u] carries the cookie of a
    session of [u]. *)
Lemma caller_authenticated w req u :
  caller w req = Some u → authenticated w req u.
Proof.
  unfold caller. intros Hc.
  destruct (nonempty (cookie_sessionId req)) as [sid|] eqn:Hsid; [|done].
  apply nonempty_inv in Hsid as [Hcookie Hne].
  destruct (sessions w !! sid) as [[u']|] eqn:Hs; [|done].
  injection Hc as ->. by exists sid.
Qed.

(** C3, amended: a stopped timer that has a userId is never reactivated,
    moved or deleted, and its id, userId, description, start and progress
    never change; the only operation that changes it is a stop request
    naming its id, made with a session of its owner: the stop handler
    does not test isActive, so it overwrites end with the current time
    and duration with end - start. *)
Theorem stopped_timer_stays_stopped op w i t u :
  timers w !! i = Some t →
  Timer.isActive t = false →
  Timer.userId t = Some u →
  ∃ t',
    timers (step op w) !! i = Some t'
    ∧ Timer.isActive t' = false
    ∧ Timer.id t' = Timer.id t
    ∧ Timer.userId t' = Timer.userId t
    ∧ Timer.description t' = Timer.description t
    ∧ Timer.start t' = Timer.start t
    ∧ Timer.progress t' = Timer.progress t
    ∧ (t' = t
       ∨ ∃ now req, op = OpStop now req ∧ params_id req = Timer.id t
                    ∧ authenticated w req u
                    ∧ Timer.end_ t' = Some now
                    ∧ Timer.duration t' = Some (now - Timer.start t)).
Proof.
  intros Hi Hstopped Howner.
  destruct (step_timers op w)
    as [-> | [(newId & now & req & tm & -> & ->)
             | (now & req & j & t0 & -> & Hj & Hid & Hu & ->)]].
  - exists t. split_and!; try done. by left.
  - exists t. split_and!; try done; [|by left].
    apply lookup_app_l_Some, Hi.
  - destruct (decide (j = i)) as [->|Hne].
    + assert (t0 = t) as -> by congruence.
      exists (stopped now t). split_and!; try done.
      * apply list_lookup_insert_eq. by eapply lookup_lt_Some.
      * right. exists now, req. split_and!; try done.
        apply caller_authenticated. by rewrite <- Hu.
    + exists t. split_and!; try done; [|by left].
      by rewrite list_lookup_insert_ne.
Qed.

(** alice stops her stopped timer "t1" again. *)
Lemma stopped_timer_stays_stopped_witness :
  let t1 := Timer.mk "t1" 1000 "write spec" false (Some "u-alice") 0
              (Some 2500) (Some 1500) in
  timers Sample.w !! 0%nat = Some t1
  ∧ Timer.isActive t1 = false
  ∧ Timer.userId t1 = Some "u-alice"
  ∧ ∃ t', timers (step (OpStop 9000 (Sample.target "s-alice" "t1")) Sample.w) !! 0%nat
          = Some t'
          ∧ Timer.isActive t' = false.
Proof.
  intros t1.
  assert (timers Sample.w !! 0%nat = Some t1) as Hi by (by vm_compute).
  split; [exact Hi|]. split; [reflexivity|]. split; [reflexivity|].
  destruct (stopped_timer_stays_stopped (OpStop 9000 (Sample.target "s-alice" "t1"))
              Sample.w 0%nat t1 "u-alice" Hi eq_refl eq_refl) as (t' & Ht' & Hact & _).
  exists t'. exact (conj Ht' Hact).
Defined.

(** ** Password hashes in response payloads *)

Lemma find_user_Some {P : User.t → Prop} `{!∀ u, Decision (P u)} l user :
  find_user P l = Some user → user ∈ l ∧ P user.
Proof.
  unfold find_user. intros ([i u] & Hfind & ->)%fmap_Some.
  apply list_find_Some in Hfind as (Hi & HP & _).
  split; [by eapply list_elem_of_lookup_2|done].
Qed.

Lemma find_user_None {P : User.t → Prop} `{!∀ u, Decision (P u)} l :
  find_user P l = None ↔ ∀ user, user ∈ l → ¬ P user.
Proof.
  unfold find_user. rewrite fmap_None, list_find_None, Forall_forall. done.
Qed.

(** C2, as stated, fails: on the sample store the home page of alice's
    session is rendered with alice's whole user record, whose password
    field is her stored hash. *)
Lemma home_view_carries_password_hash :
  ¬ (∀ op w code p user,
       reachable w → response op w = Some (code, p) → user ∈ users w →
       User.password user ∉ payload_passwords p).
Proof.
  intros Hclaim.
  apply (Hclaim (OpHome (Sample.flag "s-alice" None)) Sample.w 200
           (PView "index" (Some (User.mk "u-alice" "alice" "hash-a")) None)
           (User.mk "u-alice" "alice" "hash-a") Sample_reachable).
  - by vm_compute.
  - apply (bool_decide_unpack _). by vm_compute.
  - cbn. apply list_elem_of_singleton. reflexivity.
Qed.

(** C2, amended: whatever a handler passes to res.json, res.send or
    res.redirect carries no password field, in every state; the one
    payload that does is the home page's render context, whose [user] is
    the whole stored record (password included) of the user the session
    cookie resolves to. *)
Theorem password_only_in_home_view op w e p :
  e ∈ events op w →
  event_payload e = Some p →
  payload_passwords p = []
  ∨ ∃ req user authError,
      op = OpHome req
      ∧ p = PView "index" (Some user) authError
      ∧ user ∈ users w
      ∧ caller w req = Some (User._id user)
      ∧ payload_passwords p = [User.password user].
Proof.
  destruct op; run_handler; intros He;
    repeat (apply elem_of_cons in He as [->|He]);
    try (by apply elem_of_nil in He); cbn; intros [= <-];
    try (by left).
  match goal with |- context [find_user ?P ?l] =>
    destruct (find_user P l) as [user|] eqn:Hfind end; [|by left].
  right. apply find_user_Some in Hfind as [Hin Hid].
  eexists req, user, _. split_and!; try done.
  unfold caller.
  match goal with
  | H1 : nonempty _ = Some ?sid, H2 : sessions w !! ?sid = Some _ |- _ =>
      rewrite H1, H2
  end.
  cbn. by rewrite Hid.
Qed.

Lemma password_only_in_home_view_witness :
  let op := OpHome (Sample.flag "s-alice" None) in
  let alice := User.mk "u-alice" "alice" "hash-a" in
  let p := PView "index" (Some alice) None in
  Render p ∈ events op Sample.w
  ∧ event_payload (Render p) = Some p
  ∧ (payload_passwords p = []
     ∨ ∃ req user authError,
         op = OpHome req
         ∧ p = PView "index" (Some user) authError
         ∧ user ∈ users Sample.w
         ∧ caller Sample.w req = Some (User._id user)
         ∧ payload_passwords p = [User.password user]).
Proof.
  intros op alice p.
  assert (Render p ∈ events op Sample.w) as He.
  { apply (bool_decide_unpack _). by vm_compute. }
  split; [exact He|]. split; [reflexivity|].
  exact (password_only_in_home_view op Sample.w (Render p) p He eq_refl).
Defined.

(** ** Signing up and logging in *)

(** The four ways POST /signup ends. *)
Lemma signup_cases w hashed newId sessionId req :
  let op := OpSignup hashed newId sessionId req in
  ((nonempty (body_username req) = None ∨ nonempty (body_password req) = None)
   ∧ status op w = Some 400 ∧ step op w = w)
  ∨ (∃ username password user,
       nonempty (body_username req) = Some username
       ∧ nonempty (body_password req) = Some password
       ∧ find_user (λ user, User.username user = username) (users w) = Some user
       ∧ status op w = Some 409 ∧ step op w = w)
  ∨ (∃ username password,
       nonempty (body_username req) = Some username
       ∧ nonempty (body_password req) = Some password
       ∧ find_user (λ user, User.username user = username) (users w) = None
       ∧ hashed = None
       ∧ status op w = Some 500 ∧ step op w = w)
  ∨ (∃ username password h,
       nonempty (body_username req) = Some username
       ∧ nonempty (body_password req) = Some password
       ∧ find_user (λ user, User.username user = username) (users w) = None
       ∧ hashed = Some h
       ∧ status op w = Some 302
       ∧ cookies_set op w = [("sessionId", Some sessionId)]
       ∧ step op w = mkWorld (timers w) (users w ++ [User.mk newId username h])
                       (<[sessionId := Session.mk newId]> (sessions w))).
Proof.
  unfold status, cookies_set. run_handler.
  all: first
    [ left; split; [(left + right); done | done]
    | right; left; by eexists _, _, _
    | right; right; left; by eexists _, _
    | right; right; right; by eexists _, _, _ ].
Qed.

(** The five ways POST /login ends. *)
Lemma login_cases w match_ sessionId req :
  let op := OpLogin match_ sessionId req in
  ((nonempty (body_username req) = None ∨ nonempty (body_password req) = None)
   ∧ status op w = Some 400 ∧ step op w = w)
  ∨ (∃ username password,
       nonempty (body_username req) = Some username
       ∧ nonempty (body_password req) = Some password
       ∧ find_user (λ user, User.username user = username) (users w) = None
       ∧ status op w = Some 404 ∧ step op w = w)
  ∨ (∃ username password user,
       nonempty (body_username req) = Some username
       ∧ nonempty (body_password req) = Some password
       ∧ find_user (λ user, User.username user = username) (users w) = Some user
       ∧ ((match_ = None ∧ status op w = Some 500)
          ∨ (match_ = Some false ∧ status op w = Some 401))
       ∧ step op w = w)
  ∨ (∃ username password user,
       nonempty (body_username req) = Some username
       ∧ nonempty (body_password req) = Some password
       ∧ find_user (λ user, User.username user = username) (users w) = Some user
       ∧ match_ = Some true
       ∧ status op w = Some 302
       ∧ cookies_set op w = [("sessionId", Some sessionId)]
       ∧ step op w = mkWorld (timers w) (users w)
                       (<[sessionId := Session.mk (User._id user)]> (sessions w))).
Proof.
  unfold status, cookies_set. run_handler.
  all: first
    [ left; split; [(left + right); done | done]
    | right; left; by eexists _, _
    | right; right; left; eexists _, _, _;
      split_and!; [done..| (left + right); done | done]
    | right; right; right; by eexists _, _, _ ].
Qed.

Lemma missing_nonempty v : missing v ↔ nonempty v = None.
Proof. symmetry. apply nonempty_None. Qed.

Lemma taken_find_user (l : list User.t) v username :
  nonempty v = Some username →
  (∃ user, user ∈ l ∧ Some (User.username user) = v)
  ↔ find_user (λ user, User.username user = username) l ≠ None.
Proof.
  intros [-> _]%nonempty_inv. rewrite find_user_None. split.
  - intros (user & Hin & [= Hu]) Hnone. by apply (Hnone user).
  - intros Hsome.
    destruct (find_user (λ user, User.username user = username) l) as [user|] eqn:Hf.
    + apply find_user_Some in Hf as [Hin Hu]. exists user. by rewrite Hu.
    + destruct Hsome. by apply find_user_None.
Qed.

(** C8, as stated, fails: "alice" is taken in the sample store, yet a
    signup as "alice" with an empty password is answered 400, not 409. *)
Lemma signup_taken_username_empty_password :
  ¬ (∀ w hashed newId sessionId req username,
       body_username req = Some username →
       (status (OpSignup hashed newId sessionId req) w = Some 409
        ↔ ∃ user, user ∈ users w ∧ User.username user = username)).
Proof.
  intros Hclaim.
  destruct (Hclaim Sample.w (Some "hash-c") "u-carol" "s-carol"
              (Sample.credentials "alice" "") "alice" eq_refl) as [_ Hconflict].
  assert (status (OpSignup (Some "hash-c") "u-carol" "s-carol"
                    (Sample.credentials "alice" "")) Sample.w = Some 400) as H400.
  { by vm_compute. }
  rewrite H400 in Hconflict. discriminate Hconflict.
  exists (User.mk "u-alice" "alice" "hash-a"). split; [|done].
  apply (bool_decide_unpack _). by vm_compute.
Qed.

(** C8, amended: signup answers 400 exactly when the username or the
    password is absent or empty, and 409 exactly when both are present
    and non-empty and a stored user has the same username (compared as
    strings, case included), whatever the password; in both cases the
    store is unchanged.  On success (the redirect) a user with the new id,
    the given username and the hash is appended, and usernames that were
    unique remain unique. *)
Theorem signup_validation_then_conflict w hashed newId sessionId req :
  NoDup (User.username <$> users w) →
  let op := OpSignup hashed newId sessionId req in
  let invalid := missing (body_username req) ∨ missing (body_password req) in
  let taken :=
    ∃ user, user ∈ users w ∧ Some (User.username user) = body_username req in
  (status op w = Some 400 ↔ invalid)
  ∧ (status op w = Some 409 ↔ ¬ invalid ∧ taken)
  ∧ (status op w = Some 400 ∨ status op w = Some 409 → step op w = w)
  ∧ (status op w = Some 302 →
     ∃ username h,
       body_username req = Some username ∧ hashed = Some h
       ∧ users (step op w) = users w ++ [User.mk newId username h])
  ∧ NoDup (User.username <$> users (step op w)).
Proof.
  intros Hnd. cbv zeta. rewrite !missing_nonempty.
  destruct (signup_cases w hashed newId sessionId req)
    as [(Hinv & -> & ->)
       | [(username & password & user & Hu & Hp & Hfind & -> & ->)
         | [(username & password & Hu & Hp & Hfind & -> & -> & ->)
           | (username & password & h & Hu & Hp & Hfind & -> & -> & _ & ->)]]].
  all: rewrite ?(taken_find_user _ _ _ Hu), ?Hu, ?Hp, ?Hfind; cbn.
  all: split_and!; try done.
  all: try (split; try done).
  all: try (by intros [Hvalid _]).
  all: try (by intros [_ ?]).
  all: try (by intros [?|?]).
  - intros _. split; [by intros [?|?]|done].
  - intros _. exists username, h. by apply nonempty_inv in Hu as [-> _].
  - rewrite fmap_app. apply NoDup_app. split_and!; [done| |apply NoDup_singleton].
    intros x (user & -> & Hin)%list_elem_of_fmap [= Heq]%list_elem_of_singleton.
    rewrite find_user_None in Hfind. by apply (Hfind user).
Qed.

(** carol signs up on the sample store. *)
Lemma signup_validation_then_conflict_witness :
  let op := OpSignup (Some "hash-c") "u-carol" "s-carol"
              (Sample.credentials "carol" "pw3") in
  NoDup (User.username <$> users Sample.w)
  ∧ status op Sample.w = Some 302
  ∧ NoDup (User.username <$> users (step op Sample.w))
  ∧ User.username <$> users (step op Sample.w) = ["alice"; "bob"; "carol"].
Proof.
  intros op.
  assert (NoDup (User.username <$> users Sample.w)) as Hnd.
  { apply (bool_decide_unpack _). by vm_compute. }
  split; [exact Hnd|]. split; [by vm_compute|].
  split; [|by vm_compute].
  apply (signup_validation_then_conflict Sample.w (Some "hash-c") "u-carol" "s-carol"
           (Sample.credentials "carol" "pw3") Hnd).
Defined.

(** ** Sessions: issue, resolve, revoke *)

Lemma find_user_app_new {P : User.t → Prop} `{!∀ u, Decision (P u)} l user :
  find_user P l = None → P user → find_user P (l ++ [user]) = Some user.
Proof.
  unfold find_user. intros Hnone%fmap_None HP.
  rewrite list_find_app_r by done. cbn. by rewrite decide_True.
Qed.

(** GET /logout always reaches its delete and write. *)
Lemma logout_world req w :
  step (OpLogout req) w
  = mkWorld (timers w) (users w)
      (delete (property_key (cookie_sessionId req)) (sessions w)).
Proof. by run_handler. Qed.

(** C7: the identifier a successful signup or login sets as the session
    cookie resolves, in the state the request leaves, to a session whose
    userId is the id of the user of that name (the one just created, or
    the one whose password was checked); and after a logout request that
    carries the identifier, in whatever state it is made, the identifier
    is no longer in the sessions and checkSession answers 401.  [sid], a
    nanoid(), is not the empty string. *)
Theorem session_resolves_until_revoked op w sid req creq :
  issues op sid req →
  status op w = Some 302 →
  sid ≠ "" →
  cookie_sessionId creq = Some sid →
  let w' := step op w in
  cookies_set op w = [("sessionId", Some sid)]
  ∧ (∃ username user,
       body_username req = Some username
       ∧ find_user (λ user, User.username user = username) (users w') = Some user
       ∧ run (checkSession creq) w'
         = (Ok (VSession (Session.mk (User._id user))),
            mkState w' fresh_response [Read SESSIONS]))
  ∧ ∀ w2,
      let w3 := step (OpLogout creq) w2 in
      sessions w3 !! sid = None
      ∧ run (checkSession creq) w3
        = (Ok VRes,
           mkState w3 (mkResponse 401 [] (Some (401, PMessage "Unauthorized")))
             [Read SESSIONS; Status 401; Json (PMessage "Unauthorized")]).
Proof.
  intros Hop H302 Hne Hc. cbv zeta.
  assert (∀ w' u, sessions w' !! sid = Some (Session.mk u) →
            run (checkSession creq) w'
            = (Ok (VSession (Session.mk u)), mkState w' fresh_response [Read SESSIONS]))
    as Hresolve.
  { intros w' u Hs. unfold run, start_state.
    by rewrite (checkSession_authenticated _ _ _ _ u) by by exists sid. }
  split_and!.
  - destruct Hop.
    + destruct (signup_cases w hashed newId sid req)
        as [(_ & H & _) | [(? & ? & ? & _ & _ & _ & H & _)
           | [(? & ? & _ & _ & _ & _ & H & _)
             | (? & ? & ? & _ & _ & _ & _ & _ & H & _)]]];
        [rewrite H302 in H; done..|done].
    + destruct (login_cases w match_ sid req)
        as [(_ & H & _) | [(? & ? & _ & _ & _ & H & _)
           | [(? & ? & ? & _ & _ & _ & [[_ H]|[_ H]] & _)
             | (? & ? & ? & _ & _ & _ & _ & _ & H & _)]]];
        [rewrite H302 in H; done..|done].
  - destruct Hop.
    + destruct (signup_cases w hashed newId sid req)
        as [(_ & H & _) | [(? & ? & ? & _ & _ & _ & H & _)
           | [(? & ? & _ & _ & _ & _ & H & _)
             | (username & password & h & Hu & _ & Hfind & _ & _ & _ & ->)]]];
        [rewrite H302 in H; done..|].
      exists username, (User.mk newId username h). cbn.
      split_and!.
      * by apply nonempty_inv in Hu as [-> _].
      * by apply find_user_app_new.
      * apply Hresolve. cbn. apply lookup_insert_eq.
    + destruct (login_cases w match_ sid req)
        as [(_ & H & _) | [(? & ? & _ & _ & _ & H & _)
           | [(? & ? & ? & _ & _ & _ & [[_ H]|[_ H]] & _)
             | (username & password & user & Hu & _ & Hfind & _ & _ & _ & ->)]]];
        [rewrite H302 in H; done..|].
      exists username, user. cbn.
      split_and!.
      * by apply nonempty_inv in Hu as [-> _].
      * done.
      * apply Hresolve. cbn. apply lookup_insert_eq.
  - intros w2. rewrite logout_world, Hc. cbn.
    split; [apply lookup_delete_eq|].
    unfold run, start_state. rewrite checkSession_unauthenticated; [done|].
    right. rewrite Hc. cbn. apply lookup_delete_eq.
Qed.

(** bob logs in again on the sample store and is given "s-bob2". *)
Lemma session_resolves_until_revoked_witness :
  let op := OpLogin (Some true) "s-bob2" (Sample.credentials "bob" "pw2") in
  let creq := Sample.flag "s-bob2" None in
  issues op "s-bob2" (Sample.credentials "bob" "pw2")
  ∧ status op Sample.w = Some 302
  ∧ "s-bob2" ≠ ""
  ∧ cookies_set op Sample.w = [("sessionId", Some "s-bob2")]
  ∧ sessions (step (OpLogout creq) (step op Sample.w)) !! "s-bob2" = None.
Proof.
  intros op creq.
  assert (issues op "s-bob2" (Sample.credentials "bob" "pw2")) as Hop by constructor.
  assert (status op Sample.w = Some 302) as H302 by (by vm_compute).
  assert ("s-bob2" ≠ "") as Hne by done.
  destruct (session_resolves_until_revoked op Sample.w "s-bob2"
              (Sample.credentials "bob" "pw2") creq Hop H302 Hne eq_refl)
    as (Hcookie & _ & Hrevoke).
  split; [exact Hop|]. split; [exact H302|]. split; [exact Hne|].
  split; [exact Hcookie|]. exact (proj1 (Hrevoke (step op Sample.w))).
Defined.

(** ** The session check on a request without a session *)

(** What checkSession returns after answering 401 is the response object,
    which is truthy: the handlers' [if (!session) return;] does not
    return. *)
Lemma checkSession_unauthenticated_truthy w req :
  unauthenticated w req →
  ∃ v s, run (checkSession req) w = (Ok v, s) ∧ truthy v = true
         ∧ get_userId v = None
         ∧ sent (res s) = Some (401, PMessage "Unauthorized").
Proof.
  intros Hu. unfold run, start_state.
  rewrite (checkSession_unauthenticated _ _ _ Hu). by eexists _, _.
Qed.

(** POST /api/timers from a request without a session and with a
    description: the 401 is sent, then the body runs with
    [session.userId] undefined, appends a timer without userId and writes
    the collection; the two later res.json calls raise. *)
Lemma start_timer_unauthenticated w req newId now d :
  unauthenticated w req →
  body_description req = Some d →
  d ≠ "" →
  let orphan := Timer.mk newId now d true None 0 None None in
  run (start_timer newId now req) w
  = (Throw HeadersSent,
     mkState (mkWorld (timers w ++ [orphan]) (users w) (sessions w))
       (mkResponse 400 [] (Some (401, PMessage "Unauthorized")))
       [Read SESSIONS; Status 401; Json (PMessage "Unauthorized");
        Read TIMERS; Write TIMERS; Status 201; Json (PTimer orphan);
        Status 400;
        Json (PMessage "Cannot set headers after they are sent to the client")]).
Proof.
  intros Hu Hd Hne. unfold run, start_timer, start_state.
  rewrite bind_eq, (checkSession_unauthenticated _ _ _ Hu).
  rewrite Hd, nonempty_Some by done. reflexivity.
Qed.

(** C1 at a failing input: POST /api/timers with no cookie and the
    description "x", on the initial (empty) store.  The request is
    answered 401, and yet the handler body runs: the timers collection is
    read and written (it now holds a timer without userId), and two more
    responses are attempted, each raising. *)
Theorem start_timer_without_session_writes :
  let req := mkRequest None None None (Some "x") None None "" in
  let orphan := Timer.mk "t9" 7000 "x" true None 0 None None in
  unauthenticated initial_world req
  ∧ run (start_timer "t9" 7000 req) initial_world
    = (Throw HeadersSent,
       mkState (mkWorld [orphan] [] ∅)
         (mkResponse 400 [] (Some (401, PMessage "Unauthorized")))
         [Read SESSIONS; Status 401; Json (PMessage "Unauthorized");
          Read TIMERS; Write TIMERS; Status 201; Json (PTimer orphan);
          Status 400;
          Json (PMessage "Cannot set headers after they are sent to the client")]).
Proof.
  intros req orphan.
  assert (unauthenticated initial_world req) as Hu by (by left).
  split; [exact Hu|].
  by rewrite (start_timer_unauthenticated initial_world req "t9" 7000 "x" Hu).
Qed.

(** The other protected handlers on a request without a session: GET
    /logout writes the sessions back and raises in clearCookie, GET
    /api/timers attempts a second res.json, and the stop handler attempts
    a 403. *)
Example logout_without_session :
  run (logout empty_request) Sample.w
  = (Throw HeadersSent,
     mkState Sample.w (mkResponse 401 [] (Some (401, PMessage "Unauthorized")))
       [Read SESSIONS; Status 401; Json (PMessage "Unauthorized");
        Read SESSIONS; Write SESSIONS; ClearCookie "sessionId"]).
Proof. by vm_compute. Qed.

Example list_timers_without_session :
  run (list_timers empty_request) Sample.w
  = (Throw HeadersSent,
     mkState Sample.w (mkResponse 401 [] (Some (401, PMessage "Unauthorized")))
       [Read SESSIONS; Status 401; Json (PMessage "Unauthorized");
        Read TIMERS; Json (PTimers [])]).
Proof. by vm_compute. Qed.

Example stop_timer_without_session :
  run (stop_timer 9000 (mkRequest None None None None None None "t1")) Sample.w
  = (Throw HeadersSent,
     mkState Sample.w (mkResponse 403 [] (Some (401, PMessage "Unauthorized")))
       [Read SESSIONS; Status 401; Json (PMessage "Unauthorized");
        Read TIMERS; Status 403; Send "Access denied"]).
Proof. by vm_compute. Qed.

(** ** An end-to-end run

    alice registers, starts "write spec" at 1000, stops it at 1600 and
    lists her stopped timers: exactly that timer, with duration 600. *)
Example register_start_stop_list :
  let w1 := step (OpSignup (Some "hash-a") "u-alice" "s-alice"
                    (Sample.credentials "alice" "pw1")) initial_world in
  let w2 := step (OpStart "t1" 1000 (Sample.describe "s-alice" "write spec")) w1 in
  let w3 := step (OpStop 1600 (Sample.target "s-alice" "t1")) w2 in
  response (OpList (Sample.flag "s-alice" (Some "false"))) w3
  = Some (200, PTimers [Timer.mk "t1" 1000 "write spec" false (Some "u-alice") 0
                          (Some 1600) (Some 600)]).
Proof. by vm_compute. Qed.

(** * Further properties of the handlers *)

(** ** The effect of each handler on the store *)

(** GET / and GET /api/timers leave the store as it is. *)
Lemma home_world req w : step (OpHome req) w = w.
Proof. run_handler; by destruct w. Qed.

Lemma list_timers_world req w : step (OpList req) w = w.
Proof. run_handler; by destruct w. Qed.

(** POST /api/timers appends one timer, owned by the caller's session,
    when the description is a non-empty string, and does nothing else. *)
Lemma start_timer_world newId now req w :
  step (OpStart newId now req) w
  = match nonempty (body_description req) with
    | None => w
    | Some d =>
        mkWorld (timers w ++ [Timer.mk newId now d true (caller w req) 0 None None])
          (users w) (sessions w)
    end.
Proof.
  run_handler; try (by destruct w).
  - by erewrite caller_session.
  - by erewrite caller_no_session.
  - by erewrite caller_no_cookie.
Qed.

(** The outcomes of the session check, with [session.userId] rewritten
    as [caller]. *)
Ltac session_cases :=
  repeat (match goal with
          | |- context [match nonempty (cookie_sessionId ?r) with _ => _ end] =>
              destruct (nonempty (cookie_sessionId r)) eqn:?
          | |- context [match sessions ?w !! ?k with _ => _ end] =>
              destruct (sessions w !! k) eqn:?
          end; cbn);
  first [ erewrite caller_session by done
        | erewrite caller_no_session by done
        | erewrite caller_no_cookie by done ].

(** The stop handler overwrites the first timer that has the requested
    id and the userId of the caller's session, and does nothing else. *)
Lemma stop_timer_world now req w :
  step (OpStop now req) w
  = match list_find (λ t, Timer.id t = params_id req
                          ∧ Timer.userId t = caller w req) (timers w) with
    | None => w
    | Some (i, t) =>
        mkWorld (<[i := stopped now t]> (timers w)) (users w) (sessions w)
    end.
Proof.
  unfold step, handler, stop_timer, checkSession. run_monad.
  session_cases; by destruct (list_find _ _) as [[??]|].
Qed.

Lemma step_frame op w :
  match op with
  | OpSignup _ _ _ _ => timers (step op w) = timers w
  | OpLogin _ _ _ | OpLogout _ =>
      timers (step op w) = timers w ∧ users (step op w) = users w
  | OpHome _ | OpList _ => step op w = w
  | OpStart _ _ _ | OpStop _ _ =>
      users (step op w) = users w ∧ sessions (step op w) = sessions w
  end.
Proof.
  destruct op.
  - destruct (signup_cases w hashed newId sessionId req)
      as [(_ & _ & ->) | [(? & ? & ? & _ & _ & _ & _ & ->)
         | [(? & ? & _ & _ & _ & _ & _ & ->)
           | (? & ? & ? & _ & _ & _ & _ & _ & _ & ->)]]]; done.
  - destruct (login_cases w match_ sessionId req)
      as [(_ & _ & ->) | [(? & ? & _ & _ & _ & _ & ->)
         | [(? & ? & ? & _ & _ & _ & _ & ->)
           | (? & ? & ? & _ & _ & _ & _ & _ & _ & ->)]]]; done.
  - by rewrite logout_world.
  - apply home_world.
  - apply list_timers_world.
  - rewrite start_timer_world. by destruct (nonempty _).
  - rewrite stop_timer_world. by destruct (list_find _ _) as [[??]|].
Qed.

(** X1: which collections a handler can change.  Signup never touches the
    timers; login and logout touch neither the timers nor the users; the
    home page and the listing change nothing; starting and stopping a
    timer touch neither the users nor the sessions.  This holds for every
    request, with or without a session. *)
Theorem handler_frame op w :
  match op with
  | OpSignup _ _ _ _ => timers (step op w) = timers w
  | OpLogin _ _ _ | OpLogout _ =>
      timers (step op w) = timers w ∧ users (step op w) = users w
  | OpHome _ | OpList _ => step op w = w
  | OpStart _ _ _ | OpStop _ _ =>
      users (step op w) = users w ∧ sessions (step op w) = sessions w
  end.
Proof.
  destruct op.
  - destruct (signup_cases w hashed newId sessionId req)
      as [(_ & _ & ->) | [(? & ? & ? & _ & _ & _ & _ & ->)
         | [(? & ? & _ & _ & _ & _ & _ & ->)
           | (? & ? & ? & _ & _ & _ & _ & _ & _ & ->)]]]; done.
  - destruct (login_cases w match_ sessionId req)
      as [(_ & _ & ->) | [(? & ? & _ & _ & _ & _ & ->)
         | [(? & ? & ? & _ & _ & _ & _ & ->)
           | (? & ? & ? & _ & _ & _ & _ & _ & _ & ->)]]]; done.
  - by rewrite logout_world.
  - apply home_world.
  - apply list_timers_world.
  - rewrite start_timer_world. by destruct (nonempty _).
  - rewrite stop_timer_world. by destruct (list_find _ _) as [[??]|].
Qed.

(** ** Logging in *)

(** X2: the outcomes of POST /login.  400 exactly when the username or
    the password is absent or empty; otherwise 404 exactly when no stored
    user has the username; otherwise the outcome of bcrypt.compare
    decides: 500 when it rejects, 401 when it answers false, the redirect
    when it answers true.  Every outcome but the redirect leaves the
    store as it was. *)
Theorem login_outcomes w match_ sessionId req :
  let op := OpLogin match_ sessionId req in
  let invalid := missing (body_username req) ∨ missing (body_password req) in
  let known :=
    ∃ user, user ∈ users w ∧ Some (User.username user) = body_username req in
  (status op w = Some 400 ↔ invalid)
  ∧ (status op w = Some 404 ↔ ¬ invalid ∧ ¬ known)
  ∧ (status op w = Some 500 ↔ ¬ invalid ∧ known ∧ match_ = None)
  ∧ (status op w = Some 401 ↔ ¬ invalid ∧ known ∧ match_ = Some false)
  ∧ (status op w = Some 302 ↔ ¬ invalid ∧ known ∧ match_ = Some true)
  ∧ (status op w ≠ Some 302 → step op w = w).
Proof.
  cbv zeta. rewrite !missing_nonempty.
  destruct (login_cases w match_ sessionId req)
    as [(Hinv & -> & ->)
       | [(username & password & Hu & Hp & Hfind & -> & ->)
         | [(username & password & user & Hu & Hp & Hfind & [[-> ->]|[-> ->]] & ->)
           | (username & password & user & Hu & Hp & Hfind & -> & -> & _ & ->)]]].
  all: rewrite ?(taken_find_user _ _ _ Hu), ?Hu, ?Hp, ?Hfind.
  all: split_and!; try done; split; intros; destruct_and?; try done.
  all: try (split_and!; try done); try (by intros [?|?]); try (by destruct_or!).
  all: try (by intros Hn; apply Hn).
  all: by match goal with H : ¬ _ ≠ _ |- _ => destruct H end.
Qed.

(** X3: a successful login adds the one session it returns, for the user
    whose password was checked, and invalidates none: every other
    identifier resolves as before, so a user can hold several sessions. *)
Theorem login_keeps_other_sessions w sessionId req :
  let op := OpLogin (Some true) sessionId req in
  status op w = Some 302 →
  ∃ username user,
    body_username req = Some username
    ∧ find_user (λ user, User.username user = username) (users w) = Some user
    ∧ sessions (step op w) !! sessionId = Some (Session.mk (User._id user))
    ∧ ∀ other, other ≠ sessionId →
        sessions (step op w) !! other = sessions w !! other.
Proof.
  cbv zeta. intros H302.
  destruct (login_cases w (Some true) sessionId req)
    as [(_ & H & _) | [(? & ? & _ & _ & _ & H & _)
       | [(? & ? & ? & _ & _ & _ & [[_ H]|[_ H]] & _)
         | (username & password & user & Hu & _ & Hfind & _ & _ & _ & ->)]]];
    [rewrite H302 in H; done..|].
  exists username, user. cbn. split_and!; [|done| |].
  - by apply nonempty_inv in Hu as [-> _].
  - apply lookup_insert_eq.
  - intros other Hne. by rewrite lookup_insert_ne.
Qed.

(** alice, who holds "s-alice", logs in again and holds both. *)
Lemma login_keeps_other_sessions_witness :
  let op := OpLogin (Some true) "s-alice2" (Sample.credentials "alice" "pw1") in
  status op Sample.w = Some 302
  ∧ sessions (step op Sample.w) !! "s-alice" = Some (Session.mk "u-alice")
  ∧ sessions (step op Sample.w) !! "s-alice2" = Some (Session.mk "u-alice").
Proof.
  intros op.
  assert (status op Sample.w = Some 302) as H302 by (by vm_compute).
  split; [exact H302|].
  destruct (login_keeps_other_sessions Sample.w "s-alice2"
              (Sample.credentials "alice" "pw1") H302)
    as (username & user & _ & _ & _ & Hother).
  split; [|by vm_compute].
  subst op. rewrite (Hother "s-alice") by done. by vm_compute.
Defined.

(** ** Logging out *)

(** X4: GET /logout with the cookie of a live session removes exactly
    that session and writes the sessions back, clears the cookie and
    redirects to "/"; every other session, the users and the timers stay. *)
Theorem logout_authenticated w req sid session :
  cookie_sessionId req = Some sid →
  sid ≠ "" →
  sessions w !! sid = Some session →
  run (logout req) w
  = (Ok tt,
     mkState (mkWorld (timers w) (users w) (delete sid (sessions w)))
       (mkResponse 302 [("sessionId", None)] (Some (302, PRedirect "/")))
       [Read SESSIONS; Read SESSIONS; Write SESSIONS; ClearCookie "sessionId";
        Redirect "/"])
  ∧ delete sid (sessions w) !! sid = None
  ∧ ∀ other, other ≠ sid → delete sid (sessions w) !! other = sessions w !! other.
Proof.
  intros Hc Hne Hs. split_and!.
  - unfold run, logout, start_state.
    rewrite bind_eq, (checkSession_authenticated _ _ _ _ (Session.userId session)).
    + by rewrite Hc.
    + exists sid. by destruct session.
  - apply lookup_delete_eq.
  - intros other Hother. by apply lookup_delete_ne.
Qed.

(** bob logs out of the sample store; alice's session stays. *)
Lemma logout_authenticated_witness :
  let req := Sample.flag "s-bob" None in
  cookie_sessionId req = Some "s-bob"
  ∧ "s-bob" ≠ ""
  ∧ sessions Sample.w !! "s-bob" = Some (Session.mk "u-bob")
  ∧ response (OpLogout req) Sample.w = Some (302, PRedirect "/")
  ∧ sessions (step (OpLogout req) Sample.w) !! "s-alice"
    = Some (Session.mk "u-alice").
Proof.
  intros req.
  assert (sessions Sample.w !! "s-bob" = Some (Session.mk "u-bob")) as Hs.
  { by vm_compute. }
  assert ("s-bob" ≠ "") as Hne by done.
  split; [reflexivity|]. split; [exact Hne|]. split; [exact Hs|].
  destruct (logout_authenticated Sample.w req "s-bob" (Session.mk "u-bob")
              eq_refl Hne Hs) as (Hrun & _ & Hother).
  split; [|by vm_compute].
  unfold response, handler. by rewrite Hrun.
Defined.

(** ** Requests the handlers reject *)

(** X5: POST /api/timers from a live session but with an absent or empty
    description is answered 400 "Description is required"; the timers are
    neither read nor written. *)
Theorem start_timer_without_description w req u newId now :
  authenticated w req u →
  missing (body_description req) →
  run (start_timer newId now req) w
  = (Ok tt,
     mkState w (mkResponse 400 [] (Some (400, PMessage "Description is required")))
       [Read SESSIONS; Status 400; Json (PMessage "Description is required")]).
Proof.
  intros Ha Hd%missing_nonempty.
  by rewrite (start_timer_authenticated _ _ _ _ _ Ha), Hd.
Qed.

Lemma start_timer_without_description_witness :
  let req := Sample.describe "s-alice" "" in
  authenticated Sample.w req "u-alice"
  ∧ missing (body_description req)
  ∧ step (OpStart "t4" 5000 req) Sample.w = Sample.w
  ∧ status (OpStart "t4" 5000 req) Sample.w = Some 400.
Proof.
  intros req.
  assert (authenticated Sample.w req "u-alice") as Ha.
  { exists "s-alice". by vm_compute. }
  assert (missing (body_description req)) as Hd by (by right).
  split; [exact Ha|]. split; [exact Hd|].
  unfold status, response, step, handler.
  by rewrite (start_timer_without_description Sample.w req "u-alice" "t4" 5000 Ha Hd).
Defined.

(** X6: whatever else a protected handler does on a request without a
    live session, the response the client receives is the 401
    "Unauthorized" of checkSession, and the users are untouched.  The
    cookie is absent, empty, or a value that names neither a stored
    session nor a member inherited from Object.prototype. *)
Theorem protected_handler_answers_401 op w :
  protected op = true →
  unauthenticated w (op_request op) →
  property_key (cookie_sessionId (op_request op)) ∉ object_prototype_keys →
  response op w = Some (401, PMessage "Unauthorized")
  ∧ users (step op w) = users w.
Proof.
  intros Hp Hu _. split.
  - destruct op; try done; cbn in Hu; unfold response, handler, run, start_state;
      unfold logout, list_timers, start_timer, stop_timer;
      rewrite bind_eq, (checkSession_unauthenticated _ _ _ Hu);
      run_monad; repeat (handler_case; cbn); try done.
  - pose proof (step_frame op w) as Hf.
    destruct op; try done; first [by rewrite Hf | by destruct Hf].
Qed.

Lemma protected_handler_answers_401_witness :
  let op := OpStop 9000 (Sample.target "stale" "t1") in
  protected op = true
  ∧ unauthenticated Sample.w (op_request op)
  ∧ (property_key (cookie_sessionId (op_request op)) ∉ object_prototype_keys)
  ∧ response op Sample.w = Some (401, PMessage "Unauthorized").
Proof.
  intros op.
  assert (unauthenticated Sample.w (op_request op)) as Hu.
  { right. by vm_compute. }
  assert (property_key (cookie_sessionId (op_request op)) ∉ object_prototype_keys)
    as Hkey.
  { apply (bool_decide_unpack _). by vm_compute. }
  split; [reflexivity|]. split; [exact Hu|]. split; [exact Hkey|].
  exact (proj1 (protected_handler_answers_401 op Sample.w eq_refl Hu Hkey)).
Defined.


(** ** Invariants of the stored state *)




Lemma well_formed_stopped now t :
  Timer.progress t = 0 → well_formed_timer (stopped now t).
Proof. intros Hp. split; [done|]. cbn. by exists now. Qed.

(** X9: in every reachable state each stored timer has progress 0 and is
    either active with no end and no duration, or stopped with both set
    and duration = end - start. *)
Theorem reachable_timers_well_formed w :
  reachable w → Forall well_formed_timer (timers w).
Proof.
  induction 1 as [|op w _ IH]; [apply Forall_nil_2|].
  pose proof (step_frame op w) as Hf.
  destruct op; cbn in Hf.
  - by rewrite Hf.
  - by destruct Hf as [-> _].
  - by destruct Hf as [-> _].
  - by rewrite Hf.
  - by rewrite Hf.
  - rewrite start_timer_world. destruct (nonempty _); [|done]. cbn.
    apply Forall_app. split; [done|]. by apply Forall_singleton.
  - rewrite stop_timer_world.
    destruct (list_find _ _) as [[i t]|] eqn:Hfind; [|done]. cbn.
    apply list_find_Some in Hfind as (Hi & _ & _).
    apply Forall_insert; [done|].
    apply well_formed_stopped.
    by eapply (Forall_lookup_1 well_formed_timer), proj1 in Hi.
Qed.

Lemma reachable_timers_well_formed_witness :
  reachable Sample.w
  ∧ Forall well_formed_timer (timers Sample.w)
  ∧ length (timers Sample.w) = 3%nat.
Proof.
  split; [exact Sample_reachable|].
  split; [|by vm_compute].
  exact (reachable_timers_well_formed Sample.w Sample_reachable).
Defined.

(** ** Timers persist *)

Lemma persists_refl t : persists t t.
Proof. by repeat split. Qed.

Lemma persists_trans t1 t2 t3 : persists t1 t2 → persists t2 t3 → persists t1 t3.
Proof.
  intros (? & ? & ? & ? & ? & ?) (? & ? & ? & ? & ? & ?).
  repeat split; try congruence; auto.
Qed.

Lemma persists_stopped now t : persists t (stopped now t).
Proof. by repeat split. Qed.

Lemma step_persists op w i t :
  timers w !! i = Some t →
  ∃ t', timers (step op w) !! i = Some t' ∧ persists t t'.
Proof.
  intros Hi.
  destruct (step_timers op w)
    as [-> | [(newId & now & req & tm & -> & ->)
             | (now & req & j & t0 & -> & Hj & _ & _ & ->)]].
  - exists t. split; [done|apply persists_refl].
  - exists t. split; [by apply lookup_app_l_Some|apply persists_refl].
  - destruct (decide (j = i)) as [->|Hne].
    + assert (t0 = t) as -> by congruence.
      exists (stopped now t). split; [|apply persists_stopped].
      apply list_lookup_insert_eq. by eapply lookup_lt_Some.
    + exists t. split; [by rewrite list_lookup_insert_ne|apply persists_refl].
Qed.

(** ** Isolation between users *)

(** X12: a request changes no timer of anyone but its caller.  A stored
    timer whose userId differs from the userId of the request's session
    (from [undefined], for a request without a live session) is the same
    after the request, whichever handler runs. *)
Theorem other_users_timers_unchanged op w i t :
  timers w !! i = Some t →
  Timer.userId t ≠ caller w (op_request op) →
  timers (step op w) !! i = Some t.
Proof.
  intros Hi Hother.
  destruct (step_timers op w)
    as [-> | [(newId & now & req & tm & -> & ->)
             | (now & req & j & t0 & -> & Hj & _ & Hu & ->)]].
  - done.
  - by apply lookup_app_l_Some.
  - destruct (decide (j = i)) as [->|Hne].
    + assert (t0 = t) as -> by congruence. done.
    + by rewrite list_lookup_insert_ne.
Qed.

(** alice names bob's running timer "t3" in a stop request. *)
Lemma other_users_timers_unchanged_witness :
  let op := OpStop 9000 (Sample.target "s-alice" "t3") in
  let t3 := Timer.mk "t3" 1700 "lunch" true (Some "u-bob") 0 None None in
  timers Sample.w !! 2%nat = Some t3
  ∧ Timer.userId t3 ≠ caller Sample.w (op_request op)
  ∧ timers (step op Sample.w) !! 2%nat = Some t3.
Proof.
  intros op t3.
  assert (timers Sample.w !! 2%nat = Some t3) as Hi by (by vm_compute).
  assert (Timer.userId t3 ≠ caller Sample.w (op_request op)) as Hother.
  { by vm_compute. }
  split; [exact Hi|]. split; [exact Hother|].
  exact (other_users_timers_unchanged op Sample.w 2%nat t3 Hi Hother).
Defined.

(** ** How the operations compose *)

(** POST /login for a stored username and a non-empty password. *)
Lemma login_known w match_ sid req username password user :
  nonempty (body_username req) = Some username →
  nonempty (body_password req) = Some password →
  find_user (λ user, User.username user = username) (users w) = Some user →
  status (OpLogin match_ sid req) w
  = Some (match match_ with Some true => 302 | Some false => 401 | None => 500 end)
  ∧ step (OpLogin match_ sid req) w
    = match match_ with
      | Some true =>
          mkWorld (timers w) (users w) (<[sid := Session.mk (User._id user)]> (sessions w))
      | _ => w
      end.
Proof.
  intros Hu Hp Hfind. unfold status, response, step, handler, login.
  rewrite Hu, Hp. run_monad. rewrite Hfind. by destruct match_ as [[]|].
Qed.

(** X13: a user who has just signed up can log in.  After a successful
    signup, a login with the same username and any non-empty password is
    decided by bcrypt.compare alone: when it answers true the login
    redirects and its session belongs to the new user; when it answers
    false the login is answered 401 and changes nothing. *)
Theorem login_after_signup w hashed newId sid req sid' lreq :
  status (OpSignup hashed newId sid req) w = Some 302 →
  body_username lreq = body_username req →
  ¬ missing (body_password lreq) →
  let w' := step (OpSignup hashed newId sid req) w in
  status (OpLogin (Some true) sid' lreq) w' = Some 302
  ∧ sessions (step (OpLogin (Some true) sid' lreq) w') !! sid'
    = Some (Session.mk newId)
  ∧ status (OpLogin (Some false) sid' lreq) w' = Some 401
  ∧ step (OpLogin (Some false) sid' lreq) w' = w'.
Proof.
  intros H302 Hsame Hpw. cbv zeta.
  destruct (signup_cases w hashed newId sid req)
    as [(_ & H & _) | [(? & ? & ? & _ & _ & _ & H & _)
       | [(? & ? & _ & _ & _ & _ & H & _)
         | (username & password & h & Hu & _ & Hfind & _ & _ & _ & ->)]]];
    [rewrite H302 in H; done..|].
  rewrite <- Hsame in Hu.
  rewrite missing_nonempty in Hpw.
  destruct (nonempty (body_password lreq)) as [password'|] eqn:Hp; [|done].
  assert (find_user (λ user, User.username user = username)
            (users w ++ [User.mk newId username h])
          = Some (User.mk newId username h)) as Hnew.
  { by apply find_user_app_new. }
  pose proof (λ match_,
    login_known (mkWorld (timers w) (users w ++ [User.mk newId username h])
                   (<[sid := Session.mk newId]> (sessions w)))
      match_ sid' lreq _ _ _ Hu Hp Hnew) as Hlogin.
  destruct (Hlogin (Some true)) as [-> ->].
  destruct (Hlogin (Some false)) as [-> ->].
  split_and!; try done. apply lookup_insert_eq.
Qed.

(** carol signs up on the sample store and logs in. *)
Lemma login_after_signup_witness :
  let signup_op := OpSignup (Some "hash-c") "u-carol" "s-carol"
                     (Sample.credentials "carol" "pw3") in
  let lreq := Sample.credentials "carol" "guess" in
  status signup_op Sample.w = Some 302
  ∧ ¬ missing (body_password lreq)
  ∧ status (OpLogin (Some true) "s-carol2" lreq) (step signup_op Sample.w) = Some 302
  ∧ status (OpLogin (Some false) "s-carol2" lreq) (step signup_op Sample.w) = Some 401.
Proof.
  intros signup_op lreq.
  assert (status signup_op Sample.w = Some 302) as H302 by (by vm_compute).
  assert (¬ missing (body_password lreq)) as Hpw by (by intros [?|?]).
  destruct (login_after_signup Sample.w (Some "hash-c") "u-carol" "s-carol"
              (Sample.credentials "carol" "pw3") "s-carol2" lreq H302 eq_refl Hpw)
    as (Hok & _ & Hbad & _).
  split; [exact H302|]. split; [exact Hpw|]. split; [exact Hok|exact Hbad].
Defined.

(** X14: starting a timer and then stopping it.  When a user starts a
    timer at time [now] (with a fresh id) and then stops it by that id at
    time [now'], the stop is answered 200 with that timer, stopped, with
    end = [now'] and duration = [now' - now]; it is the last stored timer
    and the timers before it are unchanged. *)
Theorem stop_after_start w req sreq u d newId now now' :
  authenticated w req u →
  body_description req = Some d →
  d ≠ "" →
  newId ∉ (Timer.id <$> timers w) →
  let w' := step (OpStart newId now req) w in
  authenticated w' sreq u →
  params_id sreq = newId →
  let finished :=
    Timer.mk newId now d false (Some u) 0 (Some now') (Some (now' - now)) in
  response (OpStop now' sreq) w' = Some (200, PTimer finished)
  ∧ timers (step (OpStop now' sreq) w') = timers w ++ [finished].
Proof.
  intros Ha Hd Hne Hfresh w'.
  assert (w' = mkWorld (timers w ++ [Timer.mk newId now d true (Some u) 0 None None])
                 (users w) (sessions w)) as ->.
  { unfold w', step, handler.
    by rewrite (start_timer_authenticated _ _ _ _ _ Ha), Hd, nonempty_Some. }
  intros Hs Hid finished.
  unfold response, step, handler.
  rewrite (stop_timer_authenticated _ _ _ _ Hs). cbn.
  assert (list_find (λ t, Timer.id t = params_id sreq ∧ Timer.userId t = Some u)
            (timers w) = None) as Hnone.
  { apply list_find_None, Forall_forall. intros t Hin [Hidt _].
    apply Hfresh. apply list_elem_of_fmap. exists t. by rewrite Hidt, Hid. }
  rewrite list_find_app_r, Hid by done. cbn.
  rewrite decide_True by done. cbn.
  split; [done|].
  by rewrite insert_app_r_alt, Nat.sub_diag by done.
Qed.

(** alice starts "t4" at 5000 and stops it at 5600. *)
Lemma stop_after_start_witness :
  let req := Sample.describe "s-alice" "deploy" in
  let sreq := Sample.target "s-alice" "t4" in
  authenticated Sample.w req "u-alice"
  ∧ "deploy" ≠ ""
  ∧ ("t4" ∉ Timer.id <$> timers Sample.w)
  ∧ authenticated (step (OpStart "t4" 5000 req) Sample.w) sreq "u-alice"
  ∧ response (OpStop 5600 sreq) (step (OpStart "t4" 5000 req) Sample.w)
    = Some (200, PTimer (Timer.mk "t4" 5000 "deploy" false (Some "u-alice") 0
                           (Some 5600) (Some 600))).
Proof.
  intros req sreq.
  assert (authenticated Sample.w req "u-alice") as Ha.
  { exists "s-alice". by vm_compute. }
  assert ("deploy" ≠ "") as Hne by done.
  assert ("t4" ∉ Timer.id <$> timers Sample.w) as Hfresh.
  { apply (bool_decide_unpack _). by vm_compute. }
  assert (authenticated (step (OpStart "t4" 5000 req) Sample.w) sreq "u-alice") as Hs.
  { exists "s-alice". by vm_compute. }
  split; [exact Ha|]. split; [exact Hne|]. split; [exact Hfresh|]. split; [exact Hs|].
  exact (proj1 (stop_after_start Sample.w req sreq "u-alice" "deploy" "t4" 5000 5600
                  Ha eq_refl Hne Hfresh Hs eq_refl)).
Defined.

(** The home page's render context. *)
Lemma home_response req w :
  response (OpHome req) w
  = Some (200,
          PView "index"
            (match caller w req with
             | Some userId => find_user (λ user, User._id user = userId) (users w)
             | None => None
             end)
            (if decide (query_authError req = Some "true")
             then Some "Wrong username or password"
             else query_authError req)).
Proof.
  unfold caller, response, handler, home.
  destruct (nonempty (cookie_sessionId req)) as [sid|]; run_monad; [|done].
  by destruct (sessions w !! sid).
Qed.

(** X15: after a successful signup whose user id is new among the stored
    ones, the home page requested with the session cookie just issued is
    rendered with the new user's record: its id and the username signed
    up with.  (The home page looks the user up by id and takes the first
    match, hence the condition on the id.) *)
Theorem home_after_signup w hashed newId sid req hreq :
  status (OpSignup hashed newId sid req) w = Some 302 →
  sid ≠ "" →
  newId ∉ (User._id <$> users w) →
  cookie_sessionId hreq = Some sid →
  ∃ user authError,
    User._id user = newId
    ∧ Some (User.username user) = body_username req
    ∧ hashed = Some (User.password user)
    ∧ response (OpHome hreq) (step (OpSignup hashed newId sid req) w)
      = Some (200, PView "index" (Some user) authError).
Proof.
  intros H302 Hne Hfresh Hc.
  destruct (signup_cases w hashed newId sid req)
    as [(_ & H & _) | [(? & ? & ? & _ & _ & _ & H & _)
       | [(? & ? & _ & _ & _ & _ & H & _)
         | (username & password & h & Hu & _ & _ & -> & _ & _ & ->)]]];
    [rewrite H302 in H; done..|].
  exists (User.mk newId username h). eexists. split_and!; try done.
  - by apply nonempty_inv in Hu as [-> _].
  - rewrite home_response. unfold caller. rewrite Hc, nonempty_Some by done.
    cbn -[find_user]. rewrite lookup_insert_eq. cbn -[find_user].
    rewrite find_user_app_new; [done| |done].
    apply find_user_None. intros user Hin Hid.
    apply Hfresh. apply list_elem_of_fmap. by exists user.
Qed.

Lemma home_after_signup_witness :
  let op := OpSignup (Some "hash-c") "u-carol" "s-carol"
              (Sample.credentials "carol" "pw3") in
  status op Sample.w = Some 302
  ∧ "s-carol" ≠ ""
  ∧ ("u-carol" ∉ User._id <$> users Sample.w)
  ∧ response (OpHome (Sample.flag "s-carol" None)) (step op Sample.w)
    = Some (200, PView "index" (Some (User.mk "u-carol" "carol" "hash-c")) None).
Proof.
  intros op.
  assert (status op Sample.w = Some 302) as H302 by (by vm_compute).
  assert ("s-carol" ≠ "") as Hne by done.
  assert ("u-carol" ∉ User._id <$> users Sample.w) as Hfresh.
  { apply (bool_decide_unpack _). by vm_compute. }
  split; [exact H302|]. split; [exact Hne|]. split; [exact Hfresh|].
  destruct (home_after_signup Sample.w (Some "hash-c") "u-carol" "s-carol"
              (Sample.credentials "carol" "pw3") (Sample.flag "s-carol" None)
              H302 Hne Hfresh eq_refl) as (user & authError & _ & _ & _ & _).
  by vm_compute.
Defined.

(** * Properties of class db *)

Lemma string_length_app (s1 s2 : string) :
  String.length (s1 +:+ s2) = (String.length s1 + String.length s2)%nat.
Proof.
  induction s1 as [|a s1 IH]; [done|].
  change (String a s1 +:+ s2) with (String a (s1 +:+ s2)). cbn. by rewrite IH.
Qed.

Lemma string_app_inj_l (s1 s2 t : string) : s1 +:+ t = s2 +:+ t → s1 = s2.
Proof.
  revert s2. induction s1 as [|a s1 IH]; intros [|b s2] Heq; [done|..].
  - change (t = String b s2 +:+ t) in Heq.
    apply (f_equal String.length) in Heq.
    rewrite string_length_app in Heq. cbn in Heq. lia.
  - change (String a s1 +:+ t = t) in Heq.
    apply (f_equal String.length) in Heq.
    rewrite string_length_app in Heq. cbn in Heq. lia.
  - change (String a (s1 +:+ t) = String b (s2 +:+ t)) in Heq.
    injection Heq as -> Heq. f_equal. by apply IH.
Qed.

Lemma filePath_inj {A} (d1 d2 : Db.t A) :
  Db.filePath d1 = Db.filePath d2 → Db.dbName d1 = Db.dbName d2.
Proof. apply string_app_inj_l. Qed.

Section db_properties.
Context {A : Type}.
Variable stringify : A → string.
Variable stringify_indented : A → string.
Variable parse : string → option A.

(** read() on a directory that holds the file: the file is parsed and
    nothing is written. *)
Lemma read_existing (this : Db.t A) files data :
  files !! Db.filePath this = Some data →
  Db.read stringify parse this (Db.Files files)
  = (match parse data with
     | Some v => Db.Done v
     | None => Db.Raise Db.SyntaxError
     end, Db.Files files).
Proof.
  intros Hfile. run_io. rewrite Hfile. cbn. rewrite Hfile. by destruct (parse data).
Qed.

(** X16: read() seeds a missing file.  When the directory or the file is
    absent, read() creates what is missing, writes the serialised
    initial data and, if that text parses back, returns the initial
    data; no other file is touched. *)
Theorem read_seeds_missing_file (this : Db.t A) fs :
  parse (stringify (Db.initialData this)) = Some (Db.initialData this) →
  match fs with
  | Db.NoDir => True
  | Db.Files files => files !! Db.filePath this = None
  end →
  Db.read stringify parse this fs
  = (Db.Done (Db.initialData this),
     Db.Files (<[Db.filePath this := stringify (Db.initialData this)]>
                 (match fs with Db.NoDir => ∅ | Db.Files files => files end))).
Proof.
  intros Hparse Hmissing. destruct fs as [|files]; run_io.
  - rewrite lookup_empty. cbn. by rewrite lookup_insert_eq, Hparse.
  - rewrite Hmissing. cbn. by rewrite lookup_insert_eq, Hparse.
Qed.

(** X17: read() never overwrites.  When the file exists, read() leaves
    the directory exactly as it is and answers from the file alone: the
    parsed contents, or a SyntaxError when the text is malformed; the
    initial data plays no part. *)
Theorem read_never_overwrites (this : Db.t A) files data :
  files !! Db.filePath this = Some data →
  snd (Db.read stringify parse this (Db.Files files)) = Db.Files files
  ∧ (∀ v, parse data = Some v →
          fst (Db.read stringify parse this (Db.Files files)) = Db.Done v)
  ∧ (parse data = None →
     fst (Db.read stringify parse this (Db.Files files)) = Db.Raise Db.SyntaxError).
Proof.
  intros Hfile. rewrite (read_existing _ _ _ Hfile).
  split_and!; [done|by intros v ->|by intros ->].
Qed.

(** X18: what write() stores, read() returns.  In an existing directory
    write(data) replaces the file with the indented serialisation of
    [data] and touches no other file; if that text parses back to
    [data], the next read() returns [data] and writes nothing. *)
Theorem write_then_read (this : Db.t A) files data :
  parse (stringify_indented data) = Some data →
  let fs' := Db.Files (<[Db.filePath this := stringify_indented data]> files) in
  Db.write stringify_indented this data (Db.Files files) = (Db.Done tt, fs')
  ∧ Db.read stringify parse this fs' = (Db.Done data, fs').
Proof.
  intros Hparse fs'. split; [done|].
  unfold fs'. erewrite read_existing by apply lookup_insert_eq. by rewrite Hparse.
Qed.

(** X19: two stores do not interfere.  Writing one collection does not
    change what read() returns for a collection of another name. *)
Theorem write_leaves_other_db (this other : Db.t A) files data :
  Db.dbName this ≠ Db.dbName other →
  fst (Db.read stringify parse other
         (snd (Db.write stringify_indented this data (Db.Files files))))
  = fst (Db.read stringify parse other (Db.Files files)).
Proof.
  intros Hne.
  assert (Db.filePath this ≠ Db.filePath other) as Hpath.
  { intros Heq. by apply Hne, filePath_inj. }
  run_io. rewrite lookup_insert_ne by done.
  destruct (files !! Db.filePath other) as [old|] eqn:Hfile; cbn.
  - rewrite lookup_insert_ne, Hfile by done. cbn. by destruct (parse old).
  - rewrite !lookup_insert_eq. cbn.
    by destruct (parse (stringify (Db.initialData other))).
Qed.

(** X20: the constructor makes read() and write() safe.  After
    new db(name, initialData), from any state of the directory, the
    directory and the file exist, so write() succeeds; without the
    directory write() raises ENOENT and creates nothing. *)
Theorem constructor_then_write dbName initialData fs data :
  ∃ this files,
    Db.constructor stringify dbName initialData fs = (Db.Done this, Db.Files files)
    ∧ Db.dbName this = dbName
    ∧ is_Some (files !! Db.filePath this)
    ∧ Db.write stringify_indented this data (Db.Files files)
      = (Db.Done tt,
         Db.Files (<[Db.filePath this := stringify_indented data]> files))
    ∧ Db.write stringify_indented this data Db.NoDir = (Db.Raise Db.ENOENT, Db.NoDir).
Proof.
  destruct fs as [|files]; run_io; unfold Db.filePath; cbn.
  - rewrite lookup_empty. cbn. eexists _, _. split_and!; try done.
    unfold Db.filePath. cbn. by rewrite lookup_insert_eq.
  - destruct (files !! (dbName +:+ ".json")) as [old|] eqn:Hfile; cbn;
      eexists _, _; (split_and!; try done); unfold Db.filePath; cbn.
    by rewrite lookup_insert_eq.
Qed.
End db_properties.

(** Instances on a store of one flag, seeded with [true]. *)
Lemma read_seeds_missing_file_witness :
  let this := Db.mk "flags" true in
  Db.flag_parse (Db.flag_text (Db.initialData this)) = Some (Db.initialData this)
  ∧ Db.read Db.flag_text Db.flag_parse this Db.NoDir
    = (Db.Done true, Db.Files {["flags.json" := "true"]}).
Proof.
  intros this.
  assert (Db.flag_parse (Db.flag_text (Db.initialData this))
          = Some (Db.initialData this)) as Hparse by done.
  split; [exact Hparse|].
  rewrite (read_seeds_missing_file Db.flag_text Db.flag_parse this Db.NoDir Hparse I).
  done.
Defined.

Lemma read_never_overwrites_witness :
  let this := Db.mk "flags" true in
  let files : gmap string string := {["flags.json" := "tru"]} in
  files !! Db.filePath this = Some "tru"
  ∧ Db.read Db.flag_text Db.flag_parse this (Db.Files files)
    = (Db.Raise Db.SyntaxError, Db.Files files).
Proof.
  intros this files.
  assert (files !! Db.filePath this = Some "tru") as Hfile by done.
  split; [exact Hfile|].
  destruct (read_never_overwrites Db.flag_text Db.flag_parse this files "tru" Hfile)
    as (Hfs & _ & Hbad).
  specialize (Hbad eq_refl).
  destruct (Db.read Db.flag_text Db.flag_parse this (Db.Files files)) as [r fs'].
  cbn in Hfs, Hbad. by rewrite Hfs, Hbad.
Defined.

Lemma write_then_read_witness :
  let this := Db.mk "flags" true in
  Db.flag_parse (Db.flag_indented false) = Some false
  ∧ Db.read Db.flag_text Db.flag_parse this
      (snd (Db.write Db.flag_indented this false (Db.Files ∅)))
    = (Db.Done false, Db.Files {["flags.json" := "false"]}).
Proof.
  intros this.
  assert (Db.flag_parse (Db.flag_indented false) = Some false) as Hparse by done.
  split; [exact Hparse|].
  destruct (write_then_read Db.flag_text Db.flag_indented Db.flag_parse this ∅ false
              Hparse) as [Hwrite Hread].
  rewrite Hwrite. cbn [snd]. rewrite Hread. done.
Defined.

Lemma write_leaves_other_db_witness :
  let this := Db.mk "flags" true in
  let other := Db.mk "marks" false in
  Db.dbName this ≠ Db.dbName other
  ∧ fst (Db.read Db.flag_text Db.flag_parse other
           (snd (Db.write Db.flag_indented this false
                   (Db.Files {["marks.json" := "true"]}))))
    = Db.Done true.
Proof.
  intros this other.
  assert (Db.dbName this ≠ Db.dbName other) as Hne by done.
  split; [exact Hne|].
  by rewrite (write_leaves_other_db Db.flag_text Db.flag_indented Db.flag_parse
                this other {["marks.json" := "true"]} false Hne).
Defined.

(** * Properties of overlapping requests *)

(** ** The two halves of signup and login *)

(** Run in one piece, the halves are the handler. *)
Lemma signup_split hashed newId sessionId req s :
  signup hashed newId sessionId req s
  = (k ← signup_begin req;
     match k with
     | Some (PendingSignup users username _) =>
         signup_resume hashed newId sessionId users username
     | _ => ret tt
     end) s.
Proof.
  destruct s as [w [code cs [sent_|]] lg];
    unfold signup, signup_begin, signup_resume; run_monad;
    by repeat (handler_case; cbn).
Qed.

Lemma login_split match_ sessionId req s :
  login match_ sessionId req s
  = (k ← login_begin req;
     match k with
     | Some (PendingLogin user _) => login_resume match_ sessionId user
     | _ => ret tt
     end) s.
Proof.
  destruct s as [w [code cs [sent_|]] lg];
    unfold login, login_begin, login_resume; run_monad;
    by repeat (handler_case; cbn).
Qed.

(** The first half only reads: it leaves the store as it is, and
    suspends exactly when the fields are present and the name is free
    (signup) or known (login), holding the users it read. *)
Lemma signup_begin_run req sys :
  begin (signup_begin req) sys
  = match nonempty (body_username req), nonempty (body_password req) with
    | Some username, Some password =>
        match find_user (λ user, User.username user = username) (users (store sys)) with
        | None =>
            mkSystem (store sys)
              (suspended sys
               ++ [mkSuspended fresh_response [Read USERS]
                     (PendingSignup (users (store sys)) username password)])
        | Some _ => sys
        end
    | _, _ => sys
    end.
Proof. destruct sys as [w ps]. run_half; by destruct w. Qed.

Lemma login_begin_run req sys :
  begin (login_begin req) sys
  = match nonempty (body_username req), nonempty (body_password req) with
    | Some username, Some password =>
        match find_user (λ user, User.username user = username) (users (store sys)) with
        | Some user =>
            mkSystem (store sys)
              (suspended sys
               ++ [mkSuspended fresh_response [Read USERS] (PendingLogin user password)])
        | None => sys
        end
    | _, _ => sys
    end.
Proof. destruct sys as [w ps]. run_half; by destruct w. Qed.

(** The second half of signup writes the users it read before the await
    plus the new user, whatever the users are by now. *)
Lemma signup_resume_world hashed newId sessionId users_read username w r lg :
  world (snd (signup_resume hashed newId sessionId users_read username (mkState w r lg)))
  = match hashed with
    | Some h =>
        mkWorld (timers w) (users_read ++ [User.mk newId username h])
          (<[sessionId := Session.mk newId]> (sessions w))
    | None => w
    end.
Proof. destruct r as [code cs [sent_|]]; by run_half. Qed.

Lemma login_resume_world match_ sessionId user w r lg :
  world (snd (login_resume match_ sessionId user (mkState w r lg)))
  = match match_ with
    | Some true =>
        mkWorld (timers w) (users w)
          (<[sessionId := Session.mk (User._id user)]> (sessions w))
    | _ => w
    end.
Proof.
  destruct r as [code cs [sent_|]], match_ as [[]|]; run_half; by destruct w.
Qed.


(** Requests served one after another are a special case: a signup or a
    login whose continuation runs at once is the handler run in one
    piece. *)
Lemma step_in_pieces op w ps :
  rtc sys_step (mkSystem w ps) (mkSystem (step op w) ps).
Proof.
  destruct op; try (apply rtc_once; by apply (sys_serve _ (mkSystem w ps))).
  - eapply rtc_l; [apply (sys_signup_begin req)|].
    rewrite signup_begin_run. unfold step, handler, run. cbn [store suspended].
    rewrite signup_split. unfold signup_begin. run_monad.
    destruct (nonempty (body_username req)) as [username|]; cbn;
      [destruct (nonempty (body_password req)) as [password|]; cbn|];
      [destruct (find_user _ (users w)) as [user|] eqn:Hfind; cbn|..];
      try done.
    apply rtc_once.
    evar (sys' : System).
    replace (mkSystem _ ps) with sys'; [eapply (sys_signup_resume (length ps))|];
      [by apply list_lookup_middle|].
    unfold sys', resume. cbn [store suspended]. f_equal.
    by rewrite delete_middle, app_nil_r.
  - eapply rtc_l; [apply (sys_login_begin req)|].
    rewrite login_begin_run. unfold step, handler, run. cbn [store suspended].
    rewrite login_split. unfold login_begin. run_monad.
    destruct (nonempty (body_username req)) as [username|]; cbn;
      [destruct (nonempty (body_password req)) as [password|]; cbn|];
      [destruct (find_user _ (users w)) as [user|] eqn:Hfind; cbn|..];
      try done.
    apply rtc_once.
    evar (sys' : System).
    replace (mkSystem _ ps) with sys'; [eapply (sys_login_resume (length ps))|];
      [by apply list_lookup_middle|].
    unfold sys', resume. cbn [store suspended]. f_equal.
    by rewrite delete_middle, app_nil_r.
Qed.


(** ** What overlapping requests can and cannot do *)

Lemma sys_step_timers sys sys' i t :
  sys_step sys sys' →
  timers (store sys) !! i = Some t →
  ∃ t', timers (store sys') !! i = Some t' ∧ persists t t'.
Proof.
  intros Hstep Hi. destruct Hstep as [op sys _|req sys|req sys|????????? sys _|??????? sys _].
  - by apply step_persists.
  - rewrite signup_begin_run. exists t. split; [|apply persists_refl].
    by repeat case_match.
  - rewrite login_begin_run. exists t. split; [|apply persists_refl].
    by repeat case_match.
  - unfold resume. cbn [store]. rewrite signup_resume_world.
    exists t. split; [|apply persists_refl]. by destruct hashed.
  - unfold resume. cbn [store]. rewrite login_resume_world.
    exists t. split; [|apply persists_refl]. by destruct match_ as [[]|].
Qed.

(** X11: no request, overlapping or not, deletes, moves or re-identifies
    a timer.  Through any run of the server a timer stored at an index is
    still at that index with the same id, userId, description, start and
    progress, and still stopped if it was. *)
Theorem timers_persist sys sys' i t :
  rtc sys_step sys sys' →
  timers (store sys) !! i = Some t →
  ∃ t', timers (store sys') !! i = Some t' ∧ persists t t'.
Proof.
  intros Hrun. revert t. induction Hrun as [sys|sys sys1 sys' Hstep _ IH]; intros t Hi.
  - exists t. split; [done|apply persists_refl].
  - destruct (sys_step_timers sys sys1 i t Hstep Hi) as (t1 & Hi1 & Hp1).
    destruct (IH t1 Hi1) as (t2 & Hi2 & Hp2).
    exists t2. split; [done|]. by eapply persists_trans.
Qed.

(** The sample history, then a second stop of "t1" by alice. *)
Lemma timers_persist_witness :
  let sys' := mkSystem (step (OpStop 9000 (Sample.target "s-alice" "t1")) Sample.w) [] in
  let t1 := Timer.mk "t1" 1000 "write spec" false (Some "u-alice") 0
              (Some 2500) (Some 1500) in
  rtc sys_step (mkSystem Sample.w []) sys'
  ∧ timers Sample.w !! 0%nat = Some t1
  ∧ ∃ t', timers (store sys') !! 0%nat = Some t' ∧ persists t1 t'.
Proof.
  intros sys' t1.
  assert (rtc sys_step (mkSystem Sample.w []) sys') as Hrun by apply step_in_pieces.
  assert (timers Sample.w !! 0%nat = Some t1) as Hi by (by vm_compute).
  split; [exact Hrun|]. split; [exact Hi|].
  exact (timers_persist (mkSystem Sample.w []) sys' 0%nat t1 Hrun Hi).
Defined.






